(** * The incident hooks of keep-ui: resource keys and push subscriptions

    A shallow embedding of the hooks that fetch and live-update incident
    data ([useIncidents], [useIncident], [useIncidentAlerts], ...,
    [usePollIncidents]) together with the collaborators they are composed
    from: [URLSearchParams], the SWR caching layer, the push channel and
    React's [useState] / [useCallback] / [useEffect] slots.

    Conventions.
    - A JavaScript string is a [string] holding its UTF-8 bytes.
    - A [number] that the hooks print ([limit], [offset]) is an integer
      and modelled as [Z]; [toString] and template interpolation print it
      in decimal, with a leading minus sign when negative.
    - [null] is [None] where a resource key is concerned; for the
      tri-state booleans the three cases [undefined], [null] and a value
      are kept apart ([jsval]).
    - Effects (network calls, bindings of the push channel, calls of a
      mutate function, state cells) act on an explicit [World]. *)

From Stdlib Require Import ZArith String Ascii DecimalString List Bool Lia.
From stdpp Require Import base decidable option list gmap strings.
From Stdlib Require DecimalZ.

Local Open Scope string_scope.

(* ===================================================================== *)
(** ** JavaScript values of the hook arguments *)
(* ===================================================================== *)

Module JS.

(** An argument of type [T | null] that may also be left out. *)
Inductive jsval (A : Type) : Type :=
| undefined : jsval A
| null : jsval A
| val (a : A) : jsval A.
Arguments undefined {A}.
Arguments null {A}.
Arguments val {A} a.

(** A default parameter value [x = d]: the default is taken exactly when
    the argument is [undefined]; [null] is passed through. *)
Definition default_param {A} (d : jsval A) (x : jsval A) : jsval A :=
  match x with
  | undefined => d
  | _ => x
  end.

(** The same for a parameter whose type has no [null]: [None] stands for
    [undefined]. *)
Definition default_opt {A} (d : A) (x : option A) : option A :=
  match x with
  | None => Some d
  | Some _ => x
  end.

(** [Boolean.prototype.toString] *)
Definition bool_toString (b : bool) : string :=
  if b then "true" else "false".

(** [Number.prototype.toString] on an integer. *)
Definition number_toString (n : Z) : string :=
  NilEmpty.string_of_int (Z.to_int n).

(** Truthiness of a string: only the empty string is falsy. *)
Definition truthy_string (s : string) : bool :=
  match s with
  | EmptyString => false
  | String _ _ => true
  end.

End JS.
Export JS.

(* ===================================================================== *)
(** ** URLSearchParams *)
(* ===================================================================== *)

Module URLSearchParams.

(** The list of name-value tuples, in insertion order. *)
Definition t := list (string * string).

Definition empty : t := [].

(** [set(name, value)]: when a tuple of that name exists, the first one
    gets the value and the others are removed; otherwise the tuple is
    appended. *)
Fixpoint drop_name (name : string) (ps : t) : t :=
  match ps with
  | [] => []
  | (n, v) :: ps' =>
      if String.eqb n name then drop_name name ps'
      else (n, v) :: drop_name name ps'
  end.

Fixpoint set (name value : string) (ps : t) : t :=
  match ps with
  | [] => [(name, value)]
  | (n, v) :: ps' =>
      if String.eqb n name then (n, value) :: drop_name name ps'
      else (n, v) :: set name value ps'
  end.

(** [get(name)]: the value of the first tuple of that name. *)
Fixpoint get (name : string) (ps : t) : option string :=
  match ps with
  | [] => None
  | (n, v) :: ps' => if String.eqb n name then Some v else get name ps'
  end.

Definition has (name : string) (ps : t) : bool :=
  match get name ps with
  | Some _ => true
  | None => false
  end.

Definition size (ps : t) : nat := length ps.

(** *** The application/x-www-form-urlencoded serializer *)

Definition hex_digit (n : nat) : ascii :=
  match n with
  | 0 => "0" | 1 => "1" | 2 => "2" | 3 => "3" | 4 => "4"
  | 5 => "5" | 6 => "6" | 7 => "7" | 8 => "8" | 9 => "9"
  | 10 => "A" | 11 => "B" | 12 => "C" | 13 => "D" | 14 => "E"
  | _ => "F"
  end%char.

(** Bytes that are written as they are: ASCII letters and digits and
    [*], [-], [.], [_]. *)
Definition unreserved (c : ascii) : bool :=
  let n := nat_of_ascii c in
  (((48 <=? n) && (n <=? 57)) || ((65 <=? n) && (n <=? 90))
   || ((97 <=? n) && (n <=? 122))
   || (n =? 42) || (n =? 45) || (n =? 46) || (n =? 95))%nat.

Definition encode_byte (c : ascii) : string :=
  let n := nat_of_ascii c in
  if (n =? 32)%nat then "+"
  else if unreserved c then String c EmptyString
  else String "%" (String (hex_digit (n / 16))
                     (String (hex_digit (n mod 16)) EmptyString)).

Fixpoint encode (s : string) : string :=
  match s with
  | EmptyString => EmptyString
  | String c s' => encode_byte c ++ encode s'
  end.

Definition encode_tuple (p : string * string) : string :=
  encode (fst p) ++ "=" ++ encode (snd p).

(** [toString()] *)
Definition toString (ps : t) : string :=
  String.concat "&" (map encode_tuple ps).

End URLSearchParams.

(* ===================================================================== *)
(** ** The query parameters and the key of [useIncidents] *)
(* ===================================================================== *)

Record Sorting := { id : string; desc : bool }.

(** The client returned by [useApi()], as far as the hooks look at it. *)
Record Api := { isReady : bool }.

Section IncidentsKey.

(** Constants of [@/entities/incidents/model/models]. *)
Variable DEFAULT_INCIDENTS_PAGE_SIZE : Z.
Variable DEFAULT_INCIDENTS_SORTING : Sorting.

(** [sorting.desc ? `-${sorting.id}` : sorting.id] *)
Definition sorting_value (sorting : Sorting) : string :=
  if desc sorting then "-" ++ id sorting else id sorting.

(** The body of [useIncidents] up to the call of [useSWR], on the
    parameters as they are after the defaults were applied. *)
Definition filtersParams
    (candidate predicted : jsval bool) (limit offset : option Z)
    (sorting : option Sorting) (cel : string) : URLSearchParams.t :=
  let ps := URLSearchParams.empty in
  (* if (typeof candidate === "boolean") *)
  let ps :=
    match candidate with
    | val b => URLSearchParams.set "candidate" (bool_toString b) ps
    | undefined | null => ps
    end in
  (* if (predicted !== undefined && predicted !== null) *)
  let ps :=
    match predicted with
    | val b => URLSearchParams.set "predicted" (bool_toString b) ps
    | undefined | null => ps
    end in
  (* if (limit !== undefined) *)
  let ps :=
    match limit with
    | Some n => URLSearchParams.set "limit" (number_toString n) ps
    | None => ps
    end in
  (* if (offset !== undefined) *)
  let ps :=
    match offset with
    | Some n => URLSearchParams.set "offset" (number_toString n) ps
    | None => ps
    end in
  (* if (sorting) *)
  let ps :=
    match sorting with
    | Some s => URLSearchParams.set "sorting" (sorting_value s) ps
    | None => ps
    end in
  (* if (cel) *)
  let ps :=
    if truthy_string cel then URLSearchParams.set "cel" cel ps else ps in
  ps.

(** The key function handed to [useSWR]:
    when the client is ready, ["/incidents"] followed, if there is any
    parameter, by ["?"] and [filtersParams.toString()]; [null] otherwise. *)
Definition incidents_key (api : Api) (ps : URLSearchParams.t)
  : option string :=
  if isReady api then
    Some ("/incidents" ++
          match URLSearchParams.size ps with
          | O => EmptyString
          | S _ => "?" ++ URLSearchParams.toString ps
          end)
  else None.

(** The parameters of a call, as the caller wrote them. *)
Record IncidentsParams := {
  candidate : jsval bool;
  predicted : jsval bool;
  limit : option Z;
  offset : option Z;
  sorting : option Sorting;
  cel : option string
}.

(** The parameter defaults of the signature of [useIncidents]. *)
Definition resolve (p : IncidentsParams) : IncidentsParams :=
  {| candidate := default_param (val true) (candidate p);
     predicted := default_param null (predicted p);
     limit := default_opt DEFAULT_INCIDENTS_PAGE_SIZE (limit p);
     offset := default_opt 0%Z (offset p);
     sorting := default_opt DEFAULT_INCIDENTS_SORTING (sorting p);
     cel := default_opt EmptyString (cel p) |}.

Definition params_of (p : IncidentsParams) : URLSearchParams.t :=
  let r := resolve p in
  filtersParams (candidate r) (predicted r) (limit r) (offset r)
    (sorting r) (default EmptyString (cel r)).

End IncidentsKey.

(* ===================================================================== *)
(** ** The world the hooks act on *)
(* ===================================================================== *)

(** A response body (a JSON object, kept as its text; as an object it is
    truthy whatever the text). *)
Definition Dto := string.

(** Payload of the push events ["incident-change"] and
    ["incident-comment"]. *)
Record IncidentUpdatePayload := { incident_id : option string }.

(** The functions a handler may call to revalidate: the [mutate] that
    [useSWR] returns for a key, or a function that reaches the hook from
    outside ([mutateIncidents], the [mutate] of [useAlertAudit]), known by
    its reference. *)
Inductive Mutator :=
| BoundMutate (key : option string)
| ExternalMutate (fn : nat).

#[global] Instance Mutator_eq_dec : EqDecision Mutator.
Proof. solve_decision. Defined.

(** What running a handler does, statement by statement. *)
Inductive Action :=
| Call (m : Mutator)              (* m() *)
| SetStateUuid (cell : nat).      (* setState(uuidv4()) on a state cell *)

(** An event handler: a function of the payload with an identity, since
    [unbind] and dependency arrays compare functions by reference. *)
Record Handler := {
  href : nat;
  hfun : IncidentUpdatePayload -> list Action
}.

Record World := {
  cache : gmap string Dto;            (* SWR: loaded data per key *)
  inflight : gset string;             (* SWR: keys being fetched *)
  network : list string;              (* urls of api.get, oldest first *)
  channel : list (string * Handler);  (* bindings of the push channel *)
  calls : list Mutator;               (* calls of mutate functions *)
  cells : gmap nat string;            (* useState cells; absent = undefined *)
  next_ref : nat;                     (* next unused reference *)
  uuid_drawn : nat                    (* number of uuidv4() calls so far *)
}.

Module World.

Definition init : World :=
  {| cache := ∅; inflight := ∅; network := []; channel := [];
     calls := []; cells := ∅; next_ref := 0; uuid_drawn := 0 |}.

Definition request (url : string) (w : World) : World :=
  {| cache := cache w; inflight := {[url]} ∪ inflight w;
     network := network w ++ [url]; channel := channel w;
     calls := calls w; cells := cells w; next_ref := next_ref w;
     uuid_drawn := uuid_drawn w |}.

Definition set_channel (ch : list (string * Handler)) (w : World) : World :=
  {| cache := cache w; inflight := inflight w; network := network w;
     channel := ch; calls := calls w; cells := cells w;
     next_ref := next_ref w; uuid_drawn := uuid_drawn w |}.

Definition log_call (m : Mutator) (w : World) : World :=
  {| cache := cache w; inflight := inflight w; network := network w;
     channel := channel w; calls := calls w ++ [m]; cells := cells w;
     next_ref := next_ref w; uuid_drawn := uuid_drawn w |}.

Definition set_cell (c : nat) (v : string) (w : World) : World :=
  {| cache := cache w; inflight := inflight w; network := network w;
     channel := channel w; calls := calls w; cells := <[c := v]> (cells w);
     next_ref := next_ref w; uuid_drawn := uuid_drawn w |}.

Definition draw_uuid (w : World) : World :=
  {| cache := cache w; inflight := inflight w; network := network w;
     channel := channel w; calls := calls w; cells := cells w;
     next_ref := next_ref w; uuid_drawn := S (uuid_drawn w) |}.

(** Take the next unused reference. *)
Definition alloc (w : World) : nat * World :=
  (next_ref w,
   {| cache := cache w; inflight := inflight w; network := network w;
      channel := channel w; calls := calls w; cells := cells w;
      next_ref := S (next_ref w); uuid_drawn := uuid_drawn w |}).

End World.

(* ===================================================================== *)
(** ** The caching layer (SWR) *)
(* ===================================================================== *)

Module SWR.

Record SWRConfiguration := {
  revalidateOnFocus : bool;
  fallbackData : option Dto
}.

Record SWRResponse := {
  key : option string;     (* the key the hook resolved to *)
  data : option Dto;
  isLoading : bool;
  mutate : Mutator
}.

(** The fetcher of every hook is [api.get(url)]. Requests for a key
    that is already being fetched are deduplicated. *)
Definition fetch (url : string) (w : World) : World :=
  if decide (url ∈ inflight w) then w else World.request url w.

(** [useSWR(key, fetcher, options)]. A null key means that nothing is
    fetched: the response carries the fallback data and is not loading.
    Otherwise the key is fetched; [isLoading] says that a request is
    under way and no data was loaded for the key yet. *)
Definition useSWR (k : option string) (options : SWRConfiguration)
    (w : World) : SWRResponse * World :=
  match k with
  | None =>
      ({| key := None; data := fallbackData options; isLoading := false;
          mutate := BoundMutate None |}, w)
  | Some url =>
      ({| key := Some url;
          data := match cache w !! url with
                  | Some d => Some d
                  | None => fallbackData options
                  end;
          isLoading := bool_decide (cache w !! url = None);
          mutate := BoundMutate (Some url) |}, fetch url w)
  end.

End SWR.
Export SWR.

(* ===================================================================== *)
(** ** The read hooks *)
(* ===================================================================== *)

(** [!x] on optional data: [undefined] is falsy, an object is truthy. *)
Definition falsy_data (d : option Dto) : bool :=
  match d with
  | None => true
  | Some _ => false
  end.

(** The [options] default of every read hook. *)
Definition default_options : SWRConfiguration :=
  {| revalidateOnFocus := false; fallbackData := None |}.

Section ReadHooks.

Variable DEFAULT_INCIDENTS_PAGE_SIZE : Z.
Variable DEFAULT_INCIDENTS_SORTING : Sorting.

(** The fetcher of [useIncidents] wraps the body in
    [{result, responseTimeMs}] and the hook unwraps [result] again; the
    fallback is wrapped the same way, so that [swrValue.data?.result] is
    the loaded body or [options.fallbackData]. The measured time is left
    out. *)
Definition useIncidents (api : Api) (p : IncidentsParams)
    (options : option SWRConfiguration) (w : World)
  : SWRResponse * World :=
  let options := default default_options options in
  let filtersParams :=
    params_of DEFAULT_INCIDENTS_PAGE_SIZE DEFAULT_INCIDENTS_SORTING p in
  let '(swrValue, w') := useSWR (incidents_key api filtersParams) options w in
  ({| key := key swrValue;
      data := data swrValue;
      isLoading :=
        isLoading swrValue
        || (falsy_data (fallbackData options) && negb (isReady api));
      mutate := mutate swrValue |}, w').

Definition useIncidentAlerts (api : Api) (incidentId : string)
    (limit offset : option Z) (options : option SWRConfiguration)
    (w : World) : SWRResponse * World :=
  let limit := default 20%Z limit in
  let offset := default 0%Z offset in
  let options := default default_options options in
  useSWR
    (if isReady api then
       Some ("/incidents/" ++ incidentId ++ "/alerts?limit="
             ++ number_toString limit ++ "&offset="
             ++ number_toString offset)
     else None)
    options w.

Definition useIncidentFutureIncidents (api : Api) (incidentId : string)
    (options : option SWRConfiguration) (w : World)
  : SWRResponse * World :=
  let options := default default_options options in
  useSWR
    (if isReady api then
       Some ("/incidents/" ++ incidentId ++ "/future_incidents")
     else None)
    options w.

Definition useIncident (api : Api) (incidentId : string)
    (options : option SWRConfiguration) (w : World)
  : SWRResponse * World :=
  let options := default default_options options in
  useSWR
    (if isReady api && truthy_string incidentId then
       Some ("/incidents/" ++ incidentId)
     else None)
    options w.

Definition useIncidentWorkflowExecutions (api : Api) (incidentId : string)
    (limit offset : option Z) (options : option SWRConfiguration)
    (w : World) : SWRResponse * World :=
  let limit := default 20%Z limit in
  let offset := default 0%Z offset in
  let options := default default_options options in
  useSWR
    (if isReady api then
       Some ("/incidents/" ++ incidentId ++ "/workflows?limit="
             ++ number_toString limit ++ "&offset="
             ++ number_toString offset)
     else None)
    options w.

Definition useIncidentsMeta (api : Api)
    (options : option SWRConfiguration) (w : World)
  : SWRResponse * World :=
  let options := default default_options options in
  useSWR (if isReady api then Some "/incidents/meta" else None) options w.

End ReadHooks.

(* ===================================================================== *)
(** ** The push channel *)
(* ===================================================================== *)

Module Pusher.

Definition same_binding (ev : string) (h : Handler)
    (b : string * Handler) : bool :=
  String.eqb (fst b) ev && Nat.eqb (href (snd b)) (href h).

(** Modelled from the spec: the [bind] and [unbind] that [useWebsocket]
    of [./usePusher] returns. [bind(event, handler)] subscribes the
    handler to the named event; [unbind(event, handler)] removes the
    subscription of that handler reference to that event. *)
Definition bind (ev : string) (h : Handler) (w : World) : World :=
  World.set_channel (channel w ++ [(ev, h)]) w.

Definition unbind (ev : string) (h : Handler) (w : World) : World :=
  World.set_channel
    (List.filter (fun b => negb (same_binding ev h b)) (channel w)) w.

(** The handlers subscribed to an event, in the order they were bound. *)
Definition subscribers (ev : string) (ch : list (string * Handler))
  : list Handler :=
  map snd (List.filter (fun b => String.eqb (fst b) ev) ch).

(** How many subscriptions of this handler reference an event has. *)
Definition bound_count (ev : string) (h : Handler) (w : World) : nat :=
  length (List.filter (same_binding ev h) (channel w)).

End Pusher.

Section Emission.

(** The values that the calls of [uuidv4()] return, in the order of the
    calls. *)
Variable uuidv4 : nat -> string.

Definition run_action (w : World) (a : Action) : World :=
  match a with
  | Call m => World.log_call m w
  | SetStateUuid c =>
      World.set_cell c (uuidv4 (uuid_drawn w)) (World.draw_uuid w)
  end.

Definition run_handler (data : IncidentUpdatePayload) (w : World)
    (h : Handler) : World :=
  fold_left run_action (hfun h data) w.

(** Modelled from the spec: the server emits a named event with a
    payload, and the channel delivers it to each handler subscribed to
    that name. *)
Definition emit (ev : string) (data : IncidentUpdatePayload) (w : World)
  : World :=
  fold_left (run_handler data) (Pusher.subscribers ev (channel w)) w.

Fixpoint emit_all (ev : string) (datas : list IncidentUpdatePayload)
    (w : World) : World :=
  match datas with
  | [] => w
  | d :: ds => emit_all ev ds (emit ev d w)
  end.

End Emission.

(* ===================================================================== *)
(** ** React slots: [useCallback] and [useEffect] *)
(* ===================================================================== *)

Module React.

(** What an effect returns to be run on cleanup. The effects of the
    poll hooks return [() => unbind(event, handler)] or nothing. *)
Inductive Cleanup :=
| Unbind (ev : string) (h : Handler).

Definition run_cleanup (c : option Cleanup) (w : World) : World :=
  match c with
  | Some (Unbind ev h) => Pusher.unbind ev h w
  | None => w
  end.

(** [useCallback(fn, deps)]: the memoised function is kept while the
    dependencies are the same; a new one has a new reference. *)
Definition useCallback {D : Type} `{EqDecision D}
    (fn : IncidentUpdatePayload -> list Action) (deps : D)
    (slot : option (D * Handler)) (w : World)
  : (D * Handler) * World :=
  let fresh :=
    let '(r, w') := World.alloc w in
    ((deps, {| href := r; hfun := fn |}), w') in
  match slot with
  | Some (d, h) => if decide (d = deps) then ((d, h), w) else fresh
  | None => fresh
  end.

(** [useEffect(effect, deps)]: on the first render the effect runs; on
    a later render with changed dependencies the cleanup of the last
    run is called and the effect runs again; with the same dependencies
    nothing happens. *)
Definition useEffect {D : Type} `{EqDecision D}
    (effect : World -> World * option Cleanup) (deps : D)
    (slot : option (D * option Cleanup)) (w : World)
  : (D * option Cleanup) * World :=
  match slot with
  | Some (d, c) =>
      if decide (d = deps) then ((d, c), w)
      else
        let '(w', c') := effect (run_cleanup c w) in
        ((deps, c'), w')
  | None =>
      let '(w', c') := effect w in
      ((deps, c'), w')
  end.

(** The slots of a poll hook between two renders: [CD] is the type of
    the dependencies of its [useCallback]; the dependencies of its
    effect are [bind]/[unbind] (one reference for the pair that
    [useWebsocket] returned), the handler and, where there is one, the
    [paused] flag. *)
Record Slots (CD : Type) := {
  state_cell : option nat;
  callback : option (CD * Handler);
  effect : option ((nat * nat * bool) * option Cleanup)
}.
Arguments state_cell {CD}.
Arguments callback {CD}.
Arguments effect {CD}.

Definition unmounted {CD} : Slots CD :=
  {| state_cell := None; callback := None; effect := None |}.

(** Unmounting calls the cleanup of the last run of the effect. *)
Definition unmount {CD} (st : Slots CD) (w : World) : World :=
  match effect st with
  | Some (_, c) => run_cleanup c w
  | None => w
  end.

(** The handler a mounted hook holds. *)
Definition handler {CD} (st : Slots CD) : option Handler :=
  match callback st with
  | Some (_, h) => Some h
  | None => None
  end.

End React.
Export React.

(* ===================================================================== *)
(** ** The poll hooks *)
(* ===================================================================== *)

Section PollHooks.

(** The [mutate] that [useAlerts().useAlertAudit(incidentId)] returns;
    [@/entities/alerts/model/useAlerts] is taken as given. *)
Variable useAlertAudit : string -> Mutator.

(** In each hook [ws] is the reference of the [bind]/[unbind] pair that
    [useWebsocket()] returned on this render. The effect of the two
    incident hooks has no [paused] flag; their dependency triple
    carries [false]. *)

Definition usePollIncidentComments (ws : nat) (incidentId : string)
    (st : Slots Mutator) (w : World) : Slots Mutator * World :=
  let mutateIncidentActivity := useAlertAudit incidentId in
  let '((d, handleIncoming), w) :=
    useCallback (fun data => [Call mutateIncidentActivity])
      mutateIncidentActivity (callback st) w in
  let '(eff, w) :=
    useEffect
      (fun w => (Pusher.bind "incident-comment" handleIncoming w,
                 Some (Unbind "incident-comment" handleIncoming)))
      (ws, href handleIncoming, false) (effect st) w in
  ({| state_cell := None; callback := Some (d, handleIncoming);
      effect := Some eff |}, w).

Definition usePollIncidentAlerts (ws : nat) (api : Api)
    (incidentId : string) (st : Slots Mutator) (w : World)
  : Slots Mutator * World :=
  let '(swr, w) := useIncidentAlerts api incidentId None None None w in
  let mutate := mutate swr in
  let '((d, handleIncoming), w) :=
    useCallback (fun data => [Call mutate]) mutate (callback st) w in
  let '(eff, w) :=
    useEffect
      (fun w => (Pusher.bind "incident-change" handleIncoming w,
                 Some (Unbind "incident-change" handleIncoming)))
      (ws, href handleIncoming, false) (effect st) w in
  ({| state_cell := None; callback := Some (d, handleIncoming);
      effect := Some eff |}, w).

(** [usePollIncidents(mutateIncidents, paused)] returns
    [{ incidentChangeToken }]. The state cell is made on the first
    render (holding [undefined]); its setter is known by the cell. *)
Definition usePollIncidents (ws : nat) (mutateIncidents : Mutator)
    (paused : option bool) (st : Slots (Mutator * nat)) (w : World)
  : option string * Slots (Mutator * nat) * World :=
  let paused := default false paused in
  let '(cell, w) :=
    match state_cell st with
    | Some c => (c, w)
    | None => World.alloc w
    end in
  let incidentChangeToken := cells w !! cell in
  let '((d, handleIncoming), w) :=
    useCallback
      (fun data => [Call mutateIncidents; SetStateUuid cell])
      (mutateIncidents, cell) (callback st) w in
  let '(eff, w) :=
    useEffect
      (fun w =>
         if paused then (w, None)
         else (Pusher.bind "incident-change" handleIncoming w,
               Some (Unbind "incident-change" handleIncoming)))
      (ws, href handleIncoming, paused) (effect st) w in
  (incidentChangeToken,
   {| state_cell := Some cell; callback := Some (d, handleIncoming);
      effect := Some eff |}, w).

End PollHooks.

(** How often a mutate function was called so far. *)
Definition call_count (m : Mutator) (w : World) : nat :=
  length (List.filter (fun x => bool_decide (x = m)) (calls w)).

(** The [incidentChangeToken] that the next render of a mounted
    [usePollIncidents] returns. *)
Definition token_of {CD} (st : Slots CD) (w : World) : option string :=
  match state_cell st with
  | Some c => cells w !! c
  | None => None
  end.

#[global] Instance Action_eq_dec : EqDecision Action.
Proof. solve_decision. Defined.

(** How often one run of a handler calls a mutate function, and how often
    an emission does so through the handlers bound in a channel. *)
Definition handler_calls (m : Mutator) (data : IncidentUpdatePayload)
    (h : Handler) : nat :=
  length (List.filter (fun a => bool_decide (a = Call m)) (hfun h data)).

Definition subscriber_calls (ev : string) (m : Mutator)
    (data : IncidentUpdatePayload) (ch : list (string * Handler)) : nat :=
  list_sum (map (handler_calls m data) (Pusher.subscribers ev ch)).

(** References are handed out by [World.alloc] only, so in a world that
    arose from [World.init] every handler reference and every state cell
    that the channel or the cells mention lies below [next_ref]. *)
Definition handler_wf (n : nat) (h : Handler) : Prop :=
  href h < n /\ forall data c, In (SetStateUuid c) (hfun h data) -> c < n.

Definition wf (w : World) : Prop :=
  Forall (fun b => handler_wf (next_ref w) (snd b)) (channel w)
  /\ forall c, is_Some (cells w !! c) -> c < next_ref w.

(** The key of [useIncidentAlerts] with the default page, which is how
    [usePollIncidentAlerts] calls it. *)
Definition alerts_key (api : Api) (incidentId : string) : option string :=
  key (fst (useIncidentAlerts api incidentId None None None World.init)).

(** The constants as the application defines them; the examples below
    pass every parameter that has such a default. *)
Definition example_page_size : Z := 20.
Definition example_sorting : Sorting :=
  {| id := "creation_time"; desc := true |}.

(** A generator for the examples: the n-th call returns ["uuid-n"]. *)
Definition example_uuidv4 (n : nat) : string :=
  "uuid-" ++ number_toString (Z.of_nat n).

(* ===================================================================== *)
(** ** Reading a query string back *)
(* ===================================================================== *)

Module FormDecode.

(** The value of a hexadecimal digit as the serializer writes it. *)
Definition hex_value (c : ascii) : option nat :=
  let n := nat_of_ascii c in
  if ((48 <=? n) && (n <=? 57))%nat then Some (n - 48)
  else if ((65 <=? n) && (n <=? 70))%nat then Some (n - 55)
  else None.

(** The decoding that the receiver of a form-urlencoded string applies to
    a name or a value: ["+"] is a space, ["%XY"] is the byte [XY], every
    other byte stands for itself. *)
Fixpoint decode (s : string) : string :=
  match s with
  | EmptyString => EmptyString
  | String c rest =>
      if Ascii.eqb c "+" then String " " (decode rest)
      else if Ascii.eqb c "%" then
        match rest with
        | String h (String l rest') =>
            match hex_value h, hex_value l with
            | Some a, Some b =>
                String (ascii_of_nat (16 * a + b)) (decode rest')
            | _, _ => String c (decode rest)
            end
        | _ => String c (decode rest)
        end
      else String c (decode rest)
  end.

(** Whether a byte occurs in a string, and how often. *)
Fixpoint occurs (c : ascii) (s : string) : bool :=
  match s with
  | EmptyString => false
  | String a s' => Ascii.eqb a c || occurs c s'
  end.

Fixpoint count_byte (c : ascii) (s : string) : nat :=
  match s with
  | EmptyString => 0
  | String a s' => (if Ascii.eqb a c then 1 else 0) + count_byte c s'
  end.

End FormDecode.

(** What a call of [useIncidents] asks for, as the key shows it: the two
    tri-state flags after the defaults ([None] when left out), the page,
    the value of the sorting parameter and the filter expression. *)
Definition flag_of (x : jsval bool) : option bool :=
  match x with
  | val b => Some b
  | undefined | null => None
  end.

Definition logical_params (dsize : Z) (dsort : Sorting) (p : IncidentsParams)
  : option bool * option bool * Z * Z * string * string :=
  (flag_of (default_param (val true) (candidate p)),
   flag_of (default_param null (predicted p)),
   default dsize (limit p), default 0%Z (offset p),
   sorting_value (default dsort (sorting p)),
   default EmptyString (cel p)).

(** The parameter list that such a request is written as. *)
Definition flag_tuple (name : string) (x : option bool)
  : list (string * string) :=
  match x with
  | Some b => [(name, bool_toString b)]
  | None => []
  end.

Definition logical_list
    (l : option bool * option bool * Z * Z * string * string)
  : list (string * string) :=
  let '(c, pr, lim, off, srt, q) := l in
  (flag_tuple "candidate" c ++ flag_tuple "predicted" pr
   ++ [("limit", number_toString lim); ("offset", number_toString off);
       ("sorting", srt)]
   ++ if truthy_string q then [("cel", q)] else [])%list.

(** A [useAlertAudit] for the examples: its [mutate] is one function,
    whatever the incident. *)
Definition example_useAlertAudit (incidentId : string) : Mutator :=
  ExternalMutate 0.

(* ===================================================================== *)
(** ** The standalone workflow YAML editor *)
(* ===================================================================== *)

Module WorkflowYAMLEditorStandalone.

(** The editor that [onMount] hands over, as far as the component looks
    at it: the text of its model, when it has one, and what [getValue()]
    returns. *)
Record Editor := { getModel : option string; getValue : string }.

Section Component.

(** What [parseWorkflow] returns, the wrapped definition, a provider and
    a validation error. *)
Variable Parsed : Type.
Variable DefinitionV2 : Type.
Variable Provider : Type.
Variable YamlValidationError : Type.

(** [parseWorkflow(yamlString, providers)] and
    [wrapDefinitionV2({...parsed, isValid})] of
    [@/entities/workflows/lib/parser], with [None] for a call that
    throws, and [getOrderedWorkflowYamlString]. *)
Variable parseWorkflow : string -> list Provider -> option Parsed.
Variable wrapDefinitionV2 : Parsed -> bool -> option DefinitionV2.
Variable getOrderedWorkflowYamlString : string -> string.

(** The refs and state cells of the component, and what it did to the
    outside: the calls of [updateWorkflow(workflowId, content)] and the
    messages of [console.error], oldest first. *)
Record State := {
  editorRef : option Editor;
  validationErrors : list YamlValidationError;
  isEditorMounted : bool;
  lastDeployedAt : option Z;
  isSaving : bool;
  hasChanges : bool;
  originalContent : string;
  definition : option DefinitionV2;
  updateWorkflow_calls : list (string * string);
  console_errors : list string
}.

Definition init : State :=
  {| editorRef := None; validationErrors := []; isEditorMounted := false;
     lastDeployedAt := None; isSaving := false; hasChanges := false;
     originalContent := EmptyString; definition := None;
     updateWorkflow_calls := []; console_errors := [] |}.

Definition setDefinition (d : DefinitionV2) (st : State) : State :=
  {| editorRef := editorRef st; validationErrors := validationErrors st;
     isEditorMounted := isEditorMounted st;
     lastDeployedAt := lastDeployedAt st; isSaving := isSaving st;
     hasChanges := hasChanges st; originalContent := originalContent st;
     definition := Some d;
     updateWorkflow_calls := updateWorkflow_calls st;
     console_errors := console_errors st |}.

Definition setHasChanges (b : bool) (st : State) : State :=
  {| editorRef := editorRef st; validationErrors := validationErrors st;
     isEditorMounted := isEditorMounted st;
     lastDeployedAt := lastDeployedAt st; isSaving := isSaving st;
     hasChanges := b; originalContent := originalContent st;
     definition := definition st;
     updateWorkflow_calls := updateWorkflow_calls st;
     console_errors := console_errors st |}.

Definition setOriginalContent (s : string) (st : State) : State :=
  {| editorRef := editorRef st; validationErrors := validationErrors st;
     isEditorMounted := isEditorMounted st;
     lastDeployedAt := lastDeployedAt st; isSaving := isSaving st;
     hasChanges := hasChanges st; originalContent := s;
     definition := definition st;
     updateWorkflow_calls := updateWorkflow_calls st;
     console_errors := console_errors st |}.

Definition setIsSaving (b : bool) (st : State) : State :=
  {| editorRef := editorRef st; validationErrors := validationErrors st;
     isEditorMounted := isEditorMounted st;
     lastDeployedAt := lastDeployedAt st; isSaving := b;
     hasChanges := hasChanges st; originalContent := originalContent st;
     definition := definition st;
     updateWorkflow_calls := updateWorkflow_calls st;
     console_errors := console_errors st |}.

Definition setLastDeployedAt (t : Z) (st : State) : State :=
  {| editorRef := editorRef st; validationErrors := validationErrors st;
     isEditorMounted := isEditorMounted st;
     lastDeployedAt := Some t; isSaving := isSaving st;
     hasChanges := hasChanges st; originalContent := originalContent st;
     definition := definition st;
     updateWorkflow_calls := updateWorkflow_calls st;
     console_errors := console_errors st |}.

Definition setIsEditorMounted (b : bool) (st : State) : State :=
  {| editorRef := editorRef st; validationErrors := validationErrors st;
     isEditorMounted := b;
     lastDeployedAt := lastDeployedAt st; isSaving := isSaving st;
     hasChanges := hasChanges st; originalContent := originalContent st;
     definition := definition st;
     updateWorkflow_calls := updateWorkflow_calls st;
     console_errors := console_errors st |}.

Definition setValidationErrors (es : list YamlValidationError) (st : State)
  : State :=
  {| editorRef := editorRef st; validationErrors := es;
     isEditorMounted := isEditorMounted st;
     lastDeployedAt := lastDeployedAt st; isSaving := isSaving st;
     hasChanges := hasChanges st; originalContent := originalContent st;
     definition := definition st;
     updateWorkflow_calls := updateWorkflow_calls st;
     console_errors := console_errors st |}.

Definition set_editorRef (e : Editor) (st : State) : State :=
  {| editorRef := Some e; validationErrors := validationErrors st;
     isEditorMounted := isEditorMounted st;
     lastDeployedAt := lastDeployedAt st; isSaving := isSaving st;
     hasChanges := hasChanges st; originalContent := originalContent st;
     definition := definition st;
     updateWorkflow_calls := updateWorkflow_calls st;
     console_errors := console_errors st |}.

Definition console_error (msg : string) (st : State) : State :=
  {| editorRef := editorRef st; validationErrors := validationErrors st;
     isEditorMounted := isEditorMounted st;
     lastDeployedAt := lastDeployedAt st; isSaving := isSaving st;
     hasChanges := hasChanges st; originalContent := originalContent st;
     definition := definition st;
     updateWorkflow_calls := updateWorkflow_calls st;
     console_errors := console_errors st ++ [msg] |}.

Definition call_updateWorkflow (workflowId content : string) (st : State)
  : State :=
  {| editorRef := editorRef st; validationErrors := validationErrors st;
     isEditorMounted := isEditorMounted st;
     lastDeployedAt := lastDeployedAt st; isSaving := isSaving st;
     hasChanges := hasChanges st; originalContent := originalContent st;
     definition := definition st;
     updateWorkflow_calls :=
       updateWorkflow_calls st ++ [(workflowId, content)];
     console_errors := console_errors st |}.

(** [validationErrors?.length === 0] *)
Definition isValid (st : State) : bool :=
  match validationErrors st with
  | [] => true
  | _ :: _ => false
  end.

(** The try block sets the definition parsed with [providers ?? []] and
    [isValid: true]; when the parser throws, the catch block logs. *)
Definition parseYamlToDefinition (providers : option (list Provider))
    (yamlString : string) (st : State) : State :=
  match parseWorkflow yamlString (default [] providers) with
  | Some parsed =>
      match wrapDefinitionV2 parsed true with
      | Some d => setDefinition d st
      | None => console_error "Failed to parse YAML:" st
      end
  | None => console_error "Failed to parse YAML:" st
  end.

(** [value] is [undefined] ([None]) or a string; [!value] holds for
    [undefined] and for the empty string. *)
Definition handleContentChange (providers : option (list Provider))
    (value : option string) (st : State) : State :=
  match value with
  | None => st
  | Some v =>
      if truthy_string v then
        parseYamlToDefinition providers v
          (setHasChanges (negb (String.eqb v (originalContent st))) st)
      else st
  end.

(** The effect on [yamlString]. *)
Definition yamlString_effect (yamlString : string) (st : State) : State :=
  setOriginalContent (getOrderedWorkflowYamlString yamlString) st.

(** [handleSaveWorkflow] up to its [await]: the content it sends, if it
    gets that far. *)
Definition handleSaveWorkflow (workflowId : string) (st : State)
  : State * option string :=
  match editorRef st with
  | None => (st, None)
  | Some editor =>
      if truthy_string workflowId then
        let st := setIsSaving true st in
        let content := getValue editor in
        (call_updateWorkflow workflowId content st, Some content)
      else
        (console_error "Workflow ID is required to save the workflow" st,
         None)
  end.

(** [handleSaveWorkflow] from the [await] on, in the state of that time:
    [ok] says whether [updateWorkflow] resolved, [now] is [Date.now()]. *)
Definition handleSaveWorkflow_settled (ok : bool) (content : string)
    (now : Z) (st : State) : State :=
  let st :=
    if ok then setHasChanges false (setOriginalContent content st)
    else console_error "Failed to save workflow:" st in
  setIsSaving false (setLastDeployedAt now st).

Definition handleEditorDidMount (providers : option (list Provider))
    (editor : Editor) (st : State) : State :=
  let st := set_editorRef editor st in
  let st :=
    match getModel editor with
    | Some text => parseYamlToDefinition providers text st
    | None => st
    end in
  setIsEditorMounted true st.

(** What the render shows of the save button. *)
Definition save_disabled (st : State) : bool :=
  negb (hasChanges st) || isSaving st.

Definition save_label (st : State) : string :=
  if isSaving st then "Saving..." else "Save".

(** A run of change events. *)
Definition handleContentChanges (providers : option (list Provider))
    (values : list (option string)) (st : State) : State :=
  fold_left (fun st v => handleContentChange providers v st) values st.

End Component.

Arguments editorRef {DefinitionV2 YamlValidationError} _.
Arguments validationErrors {DefinitionV2 YamlValidationError} _.
Arguments isEditorMounted {DefinitionV2 YamlValidationError} _.
Arguments lastDeployedAt {DefinitionV2 YamlValidationError} _.
Arguments isSaving {DefinitionV2 YamlValidationError} _.
Arguments hasChanges {DefinitionV2 YamlValidationError} _.
Arguments originalContent {DefinitionV2 YamlValidationError} _.
Arguments definition {DefinitionV2 YamlValidationError} _.
Arguments updateWorkflow_calls {DefinitionV2 YamlValidationError} _.
Arguments console_errors {DefinitionV2 YamlValidationError} _.
Arguments init {DefinitionV2 YamlValidationError}.
Arguments setDefinition {DefinitionV2 YamlValidationError} _ _.
Arguments setHasChanges {DefinitionV2 YamlValidationError} _ _.
Arguments setOriginalContent {DefinitionV2 YamlValidationError} _ _.
Arguments setIsSaving {DefinitionV2 YamlValidationError} _ _.
Arguments setLastDeployedAt {DefinitionV2 YamlValidationError} _ _.
Arguments setIsEditorMounted {DefinitionV2 YamlValidationError} _ _.
Arguments set_editorRef {DefinitionV2 YamlValidationError} _ _.
Arguments console_error {DefinitionV2 YamlValidationError} _ _.
Arguments call_updateWorkflow {DefinitionV2 YamlValidationError} _ _ _.
Arguments isValid {DefinitionV2 YamlValidationError} _.
Arguments setValidationErrors {DefinitionV2 YamlValidationError} _ _.
Arguments parseYamlToDefinition {Parsed DefinitionV2 Provider
  YamlValidationError} _ _ _ _ _.
Arguments handleContentChange {Parsed DefinitionV2 Provider
  YamlValidationError} _ _ _ _ _.
Arguments handleContentChanges {Parsed DefinitionV2 Provider
  YamlValidationError} _ _ _ _ _.
Arguments yamlString_effect {DefinitionV2 YamlValidationError} _ _ _.
Arguments handleSaveWorkflow {DefinitionV2 YamlValidationError} _ _.
Arguments handleSaveWorkflow_settled {DefinitionV2 YamlValidationError}
  _ _ _ _.
Arguments handleEditorDidMount {Parsed DefinitionV2 Provider
  YamlValidationError} _ _ _ _ _.
Arguments save_disabled {DefinitionV2 YamlValidationError} _.
Arguments save_label {DefinitionV2 YamlValidationError} _.

End WorkflowYAMLEditorStandalone.

(** A parser for the examples: every text parses, to itself. *)
Definition example_parseWorkflow (yamlString : string) (providers : list unit)
  : option string := Some yamlString.
Definition example_wrapDefinitionV2 (parsed : string) (isValid : bool)
  : option string := Some parsed.
Definition example_editor : WorkflowYAMLEditorStandalone.Editor :=
  {| WorkflowYAMLEditorStandalone.getModel := Some "a: 1";
     WorkflowYAMLEditorStandalone.getValue := "a: 2" |}.

(* ===================================================================== *)
(** * Properties of the query string *)
(* ===================================================================== *)

Module URLSearchParamsFacts.
Import URLSearchParams.

Lemma get_set_eq name value ps : get name (set name value ps) = Some value.
Proof.
  induction ps as [|[n v] ps IH]; simpl.
  - now rewrite String.eqb_refl.
  - destruct (String.eqb n name) eqn:E; simpl; rewrite E; auto.
Qed.

Lemma get_drop_name_ne name other ps :
  other <> name -> get other (drop_name name ps) = get other ps.
Proof.
  intros Hne. induction ps as [|[n v] ps IH]; simpl; [reflexivity|].
  destruct (String.eqb n name) eqn:E; simpl.
  - apply String.eqb_eq in E. subst n.
    destruct (String.eqb name other) eqn:E'; [|exact IH].
    apply String.eqb_eq in E'. congruence.
  - now rewrite IH.
Qed.

Lemma get_set_ne name other value ps :
  other <> name -> get other (set name value ps) = get other ps.
Proof.
  intros Hne. induction ps as [|[n v] ps IH]; simpl.
  - destruct (String.eqb name other) eqn:E; [|reflexivity].
    apply String.eqb_eq in E. congruence.
  - destruct (String.eqb n name) eqn:E; simpl.
    + apply String.eqb_eq in E. subst n.
      destruct (String.eqb name other) eqn:E'.
      * apply String.eqb_eq in E'. congruence.
      * now apply get_drop_name_ne.
    + now rewrite IH.
Qed.

(** A decimal numeral is made of digits and possibly a minus sign, all
    of which the serializer writes as they are. *)
Lemma encode_uint (u : Decimal.uint) :
  encode (NilEmpty.string_of_uint u) = NilEmpty.string_of_uint u.
Proof. induction u; simpl; try rewrite IHu; reflexivity. Qed.

Lemma encode_number (n : Z) : encode (number_toString n) = number_toString n.
Proof.
  unfold number_toString. destruct (Z.to_int n) as [u|u]; simpl.
  - apply encode_uint.
  - now rewrite encode_uint.
Qed.

Lemma encode_bool (b : bool) : encode (bool_toString b) = bool_toString b.
Proof. now destruct b. Qed.

End URLSearchParamsFacts.

(* ===================================================================== *)
(** * The read hooks *)
(* ===================================================================== *)

Section ReadHookFacts.

(** The values of [DEFAULT_INCIDENTS_PAGE_SIZE] and
    [DEFAULT_INCIDENTS_SORTING]. *)
Variable dsize : Z.
Variable dsort : Sorting.

Lemma useSWR_key k options w : key (fst (useSWR k options w)) = k.
Proof. now destruct k. Qed.

Lemma useSWR_null options w : snd (useSWR None options w) = w.
Proof. reflexivity. Qed.

Lemma useSWR_fetches url options w :
  snd (useSWR (Some url) options w) = fetch url w.
Proof. reflexivity. Qed.

(** The key of [useIncidents] is the key function applied to the
    parameters built from the call. *)
Lemma useIncidents_key api p options w :
  key (fst (useIncidents dsize dsort api p options w))
  = incidents_key api (params_of dsize dsort p).
Proof.
  unfold useIncidents.
  destruct (useSWR _ _ w) as [r w'] eqn:E. simpl.
  change r with (fst (r, w')). rewrite <- E. apply useSWR_key.
Qed.

Lemma useIncidents_world api p options w :
  snd (useIncidents dsize dsort api p options w)
  = match incidents_key api (params_of dsize dsort p) with
    | Some url => fetch url w
    | None => w
    end.
Proof.
  unfold useIncidents.
  destruct (incidents_key api (params_of dsize dsort p)); reflexivity.
Qed.

Lemma default_opt_default {A} (d : A) (x : option A) :
  default_opt d x = Some (default d x).
Proof. now destruct x. Qed.

Lemma params_of_resolve p q :
  resolve dsize dsort p = resolve dsize dsort q ->
  params_of dsize dsort p = params_of dsize dsort q.
Proof. unfold params_of. now intros ->. Qed.

(** C1: the call
    [useIncidents(true, null, 20, 0, {id:"creation_time", desc:true}, cel)]
    with the empty string as [cel] and a ready client resolves to the key
    ["/incidents?candidate=true&limit=20&offset=0&sorting=-creation_time"]:
    [predicted] and [cel] are left out, the parameters come in this
    order and the descending sort has a leading ["-"]. That url is what
    the fetcher is called with. *)
Theorem useIncidents_example_key options w :
  let p := {| candidate := val true; predicted := null;
              limit := Some 20%Z; offset := Some 0%Z;
              sorting := Some {| id := "creation_time"; desc := true |};
              cel := Some EmptyString |} in
  let url :=
    "/incidents?candidate=true&limit=20&offset=0&sorting=-creation_time" in
  let r := useIncidents dsize dsort {| isReady := true |} p options w in
  params_of dsize dsort p
  = [("candidate", "true"); ("limit", "20"); ("offset", "0");
     ("sorting", "-creation_time")]
  /\ key (fst r) = Some url
  /\ snd r = fetch url w.
Proof.
  intros p url r. split; [reflexivity|]. split.
  - unfold r. now rewrite useIncidents_key.
  - unfold r. now rewrite useIncidents_world.
Qed.

(** C2: the key of [useIncidents] is a function of the logical
    parameters alone: two calls whose parameters are the same once the
    defaults are applied, with clients in the same state of readiness,
    resolve to the same key, whatever their SWR options and whatever the
    cache and the rest of the world hold. *)
Theorem useIncidents_key_stable api1 api2 p1 p2 options1 options2 w1 w2 :
  isReady api1 = isReady api2 ->
  resolve dsize dsort p1 = resolve dsize dsort p2 ->
  key (fst (useIncidents dsize dsort api1 p1 options1 w1))
  = key (fst (useIncidents dsize dsort api2 p2 options2 w2)).
Proof.
  intros Hready Hparams. rewrite !useIncidents_key.
  rewrite (params_of_resolve _ _ Hparams).
  unfold incidents_key. now rewrite Hready.
Qed.


(** Every read hook resolves to the null key while the client is not
    ready, and a null key leaves the world as it is. *)
Lemma read_hooks_null_key api incidentId p limit offset options w :
  isReady api = false ->
  Forall (fun r : SWRResponse * World => key (fst r) = None /\ snd r = w)
    [ useIncidents dsize dsort api p options w;
      useIncident api incidentId options w;
      useIncidentAlerts api incidentId limit offset options w;
      useIncidentFutureIncidents api incidentId options w;
      useIncidentWorkflowExecutions api incidentId limit offset options w;
      useIncidentsMeta api options w ].
Proof.
  intros Hnr. repeat constructor.
  - rewrite useIncidents_key. unfold incidents_key. now rewrite Hnr.
  - rewrite useIncidents_world. unfold incidents_key. now rewrite Hnr.
  - unfold useIncident. now rewrite Hnr.
  - unfold useIncident. now rewrite Hnr.
  - unfold useIncidentAlerts. now rewrite Hnr.
  - unfold useIncidentAlerts. now rewrite Hnr.
  - unfold useIncidentFutureIncidents. now rewrite Hnr.
  - unfold useIncidentFutureIncidents. now rewrite Hnr.
  - unfold useIncidentWorkflowExecutions. now rewrite Hnr.
  - unfold useIncidentWorkflowExecutions. now rewrite Hnr.
  - unfold useIncidentsMeta. now rewrite Hnr.
  - unfold useIncidentsMeta. now rewrite Hnr.
Qed.

(** C3 (as amended): while the client is not ready, each of the six read
    hooks resolves to the null key and no network call is issued;
    [useIncidents] then reports [isLoading = true] exactly when no
    [fallbackData] option was given. *)
Theorem read_hooks_not_ready api incidentId p limit offset options w :
  isReady api = false ->
  Forall (fun r : SWRResponse * World =>
            key (fst r) = None /\ network (snd r) = network w)
    [ useIncidents dsize dsort api p options w;
      useIncident api incidentId options w;
      useIncidentAlerts api incidentId limit offset options w;
      useIncidentFutureIncidents api incidentId options w;
      useIncidentWorkflowExecutions api incidentId limit offset options w;
      useIncidentsMeta api options w ]
  /\ isLoading (fst (useIncidents dsize dsort api p options w))
     = falsy_data (fallbackData (default default_options options)).
Proof.
  intros Hnr. split.
  - eapply List.Forall_impl; [|now apply read_hooks_null_key].
    intros r [Hk Hw]. now rewrite Hk, Hw.
  - unfold useIncidents, incidents_key. rewrite Hnr. simpl.
    now rewrite andb_true_r.
Qed.

(** C4 (as amended), on the parameters: [candidate = null] leaves the
    parameter out, a boolean is written as ["true"] or ["false"], and
    [undefined] takes the default [true] of the signature and so is
    written as ["true"]; [predicted] is left out for [null] and for
    [undefined] (its default is [null]) and written out for a boolean.
    The query string is these two segments followed by those of
    [limit], [offset], [sorting] and [cel], joined by ["&"], and with a
    ready client the key is ["/incidents?"] followed by it. *)
Theorem tri_state_parameters p options w :
  let ps := params_of dsize dsort p in
  URLSearchParams.get "candidate" ps
  = match candidate p with
    | null => None
    | val b => Some (bool_toString b)
    | undefined => Some "true"
    end
  /\ URLSearchParams.get "predicted" ps
     = match predicted p with
       | null | undefined => None
       | val b => Some (bool_toString b)
       end
  /\ URLSearchParams.toString ps
     = String.concat "&"
         (match candidate p with
          | null => []
          | val b => ["candidate=" ++ bool_toString b]
          | undefined => ["candidate=true"]
          end
          ++ match predicted p with
             | null | undefined => []
             | val b => ["predicted=" ++ bool_toString b]
             end
          ++ ["limit=" ++ number_toString (default dsize (limit p));
              "offset=" ++ number_toString (default 0%Z (offset p));
              "sorting=" ++ URLSearchParams.encode
                              (sorting_value (default dsort (sorting p)))]
          ++ if truthy_string (default EmptyString (cel p))
             then ["cel=" ++ URLSearchParams.encode
                               (default EmptyString (cel p))]
             else [])
  /\ key (fst (useIncidents dsize dsort {| isReady := true |} p options w))
     = Some ("/incidents?" ++ URLSearchParams.toString ps).
Proof.
  cbv zeta. rewrite useIncidents_key.
  destruct p as [c pr l o s ce].
  unfold params_of, resolve, incidents_key; simpl.
  rewrite !default_opt_default; simpl.
  generalize (default dsize l) (default 0%Z o) (default dsort s)
    (default EmptyString ce).
  intros n m srt q. unfold filtersParams.
  destruct c as [| |b], pr as [| |b'], q as [|a q];
    simpl; unfold URLSearchParams.toString, URLSearchParams.encode_tuple;
    simpl;
    rewrite ?URLSearchParamsFacts.encode_number,
      ?URLSearchParamsFacts.encode_bool;
    auto.
Qed.

(** C5: [useIncident] with the empty string as id, the one falsy
    string, resolves to the null key and issues no network call,
    whether or not the client is ready. *)
Theorem useIncident_empty_id api options w :
  let r := useIncident api EmptyString options w in
  key (fst r) = None /\ snd r = w /\ network (snd r) = network w.
Proof.
  unfold useIncident. simpl. rewrite andb_false_r. now simpl.
Qed.

(** C6 (the code at the failing input): with a ready client,
    [useIncidentAlerts] with the empty string as id resolves to a key
    with an empty path segment and fetches it; the id is not looked
    at. *)
Theorem useIncidentAlerts_empty_id_fetches options :
  let r := useIncidentAlerts {| isReady := true |} EmptyString None None
             options World.init in
  key (fst r) = Some "/incidents//alerts?limit=20&offset=0"
  /\ network (snd r) = ["/incidents//alerts?limit=20&offset=0"].
Proof. split; reflexivity. Qed.

End ReadHookFacts.

(** Two calls with the same logical parameters, one leaving them out and
    one writing the defaults, under different options and caches. *)
Lemma useIncidents_key_stable_witness :
  let p1 := {| candidate := undefined; predicted := undefined;
               limit := None; offset := None; sorting := None;
               cel := None |} in
  let p2 := {| candidate := val true; predicted := null;
               limit := Some 20%Z; offset := Some 0%Z;
               sorting := Some example_sorting; cel := Some EmptyString |} in
  let ready := {| isReady := true |} in
  let w2 := World.request "/incidents/meta" World.init in
  let o2 := Some {| revalidateOnFocus := true; fallbackData := Some "{}" |} in
  key (fst (useIncidents example_page_size example_sorting ready p1 None
              World.init))
  = key (fst (useIncidents example_page_size example_sorting ready p2 o2 w2)).
Proof.
  intros p1 p2 ready w2 o2.
  apply (useIncidents_key_stable example_page_size example_sorting
           ready ready p1 p2 None o2 World.init w2); reflexivity.
Defined.

Lemma read_hooks_not_ready_witness :
  let api := {| isReady := false |} in
  let p := {| candidate := val true; predicted := null;
              limit := Some 20%Z; offset := Some 0%Z;
              sorting := Some example_sorting; cel := Some EmptyString |} in
  isReady api = false
  /\ isLoading (fst (useIncidents example_page_size example_sorting api p
                       None World.init)) = true.
Proof.
  intros api p. split; [reflexivity|].
  apply (read_hooks_not_ready example_page_size example_sorting api "7" p
           None None None World.init). reflexivity.
Defined.

(** Against C3 as stated: with a [fallbackData] option, [useIncidents]
    does not report loading while the client is not ready. *)
Lemma useIncidents_not_ready_with_fallback :
  let api := {| isReady := false |} in
  let p := {| candidate := val true; predicted := null;
              limit := Some 20%Z; offset := Some 0%Z;
              sorting := Some example_sorting; cel := Some EmptyString |} in
  let options := {| revalidateOnFocus := false; fallbackData := Some "{}" |} in
  let r := useIncidents example_page_size example_sorting api p
             (Some options) World.init in
  isReady api = false /\ key (fst r) = None /\ isLoading (fst r) = false.
Proof. repeat split. Qed.

(** Against C4 as stated: [useIncidents(undefined, null, 20, 0,
    {id:"creation_time", desc:true}, cel)], with the empty string as
    [cel], sends [candidate=true]. *)
Lemma candidate_undefined_is_sent :
  let p := {| candidate := undefined; predicted := null;
              limit := Some 20%Z; offset := Some 0%Z;
              sorting := Some example_sorting; cel := Some EmptyString |} in
  let r := useIncidents example_page_size example_sorting
             {| isReady := true |} p None World.init in
  URLSearchParams.has "candidate"
    (params_of example_page_size example_sorting p) = true
  /\ key (fst r)
     = Some "/incidents?candidate=true&limit=20&offset=0&sorting=-creation_time".
Proof. split; reflexivity. Qed.

(* ===================================================================== *)
(** * Emission of push events *)
(* ===================================================================== *)

Section EmissionFacts.

Variable uuidv4 : nat -> string.

(** Running handlers touches the call log, the cells and the uuid
    counter, never the bindings. *)
Lemma run_action_channel w a : channel (run_action uuidv4 w a) = channel w.
Proof. now destruct a. Qed.

Lemma run_handler_channel data h w :
  channel (run_handler uuidv4 data w h) = channel w.
Proof.
  unfold run_handler. generalize (hfun h data) as acts. intros acts.
  revert w. induction acts as [|a acts IH]; intros w; simpl; [reflexivity|].
  now rewrite IH, run_action_channel.
Qed.

Lemma run_handlers_channel data hs w :
  channel (fold_left (run_handler uuidv4 data) hs w) = channel w.
Proof.
  revert w. induction hs as [|h hs IH]; intros w; simpl; [reflexivity|].
  now rewrite IH, run_handler_channel.
Qed.

Lemma emit_channel ev data w : channel (emit uuidv4 ev data w) = channel w.
Proof. apply run_handlers_channel. Qed.

Lemma emit_all_channel ev datas w :
  channel (emit_all uuidv4 ev datas w) = channel w.
Proof.
  revert w. induction datas as [|d ds IH]; intros w; simpl; [reflexivity|].
  now rewrite IH, emit_channel.
Qed.

(** *** Counting calls *)

Lemma call_count_app m (w : World) l :
  length (List.filter (fun x => bool_decide (x = m)) (calls w ++ l)%list)
  = call_count m w + length (List.filter (fun x => bool_decide (x = m)) l).
Proof. unfold call_count. now rewrite List.filter_app, List.length_app. Qed.

Lemma call_count_run_action m w a :
  call_count m (run_action uuidv4 w a)
  = call_count m w + (if bool_decide (a = Call m) then 1 else 0).
Proof.
  destruct a as [m'|c]; simpl.
  - unfold call_count at 1. simpl. rewrite call_count_app. simpl.
    destruct (decide (m' = m)) as [->|Hne].
    + now rewrite !bool_decide_eq_true_2.
    + rewrite !bool_decide_eq_false_2; [reflexivity|congruence|congruence].
  - unfold call_count. simpl. lia.
Qed.

Lemma call_count_run_actions m acts w :
  call_count m (fold_left (run_action uuidv4) acts w)
  = call_count m w
    + length (List.filter (fun a => bool_decide (a = Call m)) acts).
Proof.
  revert w. induction acts as [|a acts IH]; intros w; simpl; [lia|].
  rewrite IH, call_count_run_action.
  destruct (bool_decide (a = Call m)); simpl; lia.
Qed.

Lemma call_count_run_handler m data h w :
  call_count m (run_handler uuidv4 data w h)
  = call_count m w + handler_calls m data h.
Proof. apply call_count_run_actions. Qed.

Lemma call_count_run_handlers m data hs w :
  call_count m (fold_left (run_handler uuidv4 data) hs w)
  = call_count m w + list_sum (map (handler_calls m data) hs).
Proof.
  revert w. induction hs as [|h hs IH]; intros w; simpl; [lia|].
  rewrite IH, call_count_run_handler. lia.
Qed.

(** An emission adds to the calls of [m] what the subscribed handlers
    call. *)
Lemma call_count_emit ev m data w :
  call_count m (emit uuidv4 ev data w)
  = call_count m w + subscriber_calls ev m data (channel w).
Proof. apply call_count_run_handlers. Qed.

Lemma call_count_emit_all ev m datas w :
  call_count m (emit_all uuidv4 ev datas w)
  = call_count m w
    + list_sum (map (fun d => subscriber_calls ev m d (channel w)) datas).
Proof.
  revert w. induction datas as [|d ds IH]; intros w; simpl; [lia|].
  rewrite IH, call_count_emit, emit_channel. lia.
Qed.

Lemma subscribers_app ev ch1 ch2 :
  Pusher.subscribers ev (ch1 ++ ch2)
  = (Pusher.subscribers ev ch1 ++ Pusher.subscribers ev ch2)%list.
Proof. unfold Pusher.subscribers. now rewrite List.filter_app, List.map_app. Qed.

Lemma subscriber_calls_bound ev m data ch h :
  subscriber_calls ev m data (ch ++ [(ev, h)])%list
  = subscriber_calls ev m data ch + handler_calls m data h.
Proof.
  unfold subscriber_calls. rewrite subscribers_app, List.map_app, list_sum_app.
  unfold Pusher.subscribers at 2. simpl. rewrite String.eqb_refl. simpl. lia.
Qed.

End EmissionFacts.

(* ===================================================================== *)
(** * The poll hooks *)
(* ===================================================================== *)

(** *** Unbinding a handler whose reference is new *)

Lemma filter_other_bindings ev h n ch :
  Forall (fun b : string * Handler => handler_wf n (snd b)) ch ->
  n <= href h ->
  List.filter (fun b => negb (Pusher.same_binding ev h b)) ch = ch.
Proof.
  intros Hwf Hn. induction Hwf as [|[e g] ch [Hg _] _ IH]; simpl; [reflexivity|].
  unfold Pusher.same_binding at 1. simpl.
  simpl in Hg.
  replace (href g =? href h)%nat with false
    by (symmetry; apply Nat.eqb_neq; lia).
  rewrite andb_false_r. simpl. now rewrite IH.
Qed.

Lemma filter_unbinds ev h n ch :
  Forall (fun b : string * Handler => handler_wf n (snd b)) ch ->
  n <= href h ->
  List.filter (fun b => negb (Pusher.same_binding ev h b)) (ch ++ [(ev, h)])
  = ch.
Proof.
  intros Hwf Hn. rewrite List.filter_app, (filter_other_bindings _ _ n) by auto.
  simpl. unfold Pusher.same_binding. simpl.
  rewrite String.eqb_refl, Nat.eqb_refl. simpl. apply app_nil_r.
Qed.

Lemma count_other_bindings ev h n ch :
  Forall (fun b : string * Handler => handler_wf n (snd b)) ch ->
  n <= href h ->
  length (List.filter (Pusher.same_binding ev h) ch) = 0.
Proof.
  intros Hwf Hn. induction Hwf as [|[e g] ch [Hg _] _ IH]; simpl; [reflexivity|].
  unfold Pusher.same_binding at 1. simpl.
  simpl in Hg.
  replace (href g =? href h)%nat with false
    by (symmetry; apply Nat.eqb_neq; lia).
  now rewrite andb_false_r.
Qed.

Lemma count_bound_once ev h n ch :
  Forall (fun b : string * Handler => handler_wf n (snd b)) ch ->
  n <= href h ->
  length (List.filter (Pusher.same_binding ev h) (ch ++ [(ev, h)])) = 1.
Proof.
  intros Hwf Hn. rewrite List.filter_app, List.length_app.
  rewrite (count_other_bindings _ _ n) by auto.
  simpl. unfold Pusher.same_binding. simpl.
  now rewrite String.eqb_refl, Nat.eqb_refl.
Qed.

(** *** Mounting *)

Lemma useIncidentAlerts_frame api incidentId limit offset options w :
  let r := useIncidentAlerts api incidentId limit offset options w in
  channel (snd r) = channel w /\ calls (snd r) = calls w
  /\ next_ref (snd r) = next_ref w /\ cells (snd r) = cells w
  /\ uuid_drawn (snd r) = uuid_drawn w.
Proof.
  unfold useIncidentAlerts. destruct (isReady api); simpl; auto.
  unfold fetch. case_decide; simpl; auto.
Qed.

Lemma useIncidentAlerts_mutate api incidentId w :
  mutate (fst (useIncidentAlerts api incidentId None None None w))
  = BoundMutate (alerts_key api incidentId).
Proof.
  unfold alerts_key, useIncidentAlerts. now destruct (isReady api).
Qed.

Lemma usePollIncidentAlerts_mount ws api incidentId w :
  let m := BoundMutate (alerts_key api incidentId) in
  let h := {| href := next_ref w; hfun := fun _ => [Call m] |} in
  let r := usePollIncidentAlerts ws api incidentId unmounted w in
  fst r = {| state_cell := None; callback := Some (m, h);
             effect := Some ((ws, next_ref w, false),
                             Some (Unbind "incident-change" h)) |}
  /\ channel (snd r) = (channel w ++ [("incident-change", h)])%list
  /\ calls (snd r) = calls w.
Proof.
  unfold alerts_key, usePollIncidentAlerts, useIncidentAlerts.
  destruct (isReady api); simpl; auto.
  unfold fetch. case_decide; simpl; auto.
Qed.

Section PollHookFacts.

Variable uuidv4 : nat -> string.
Variable useAlertAudit : string -> Mutator.

(** C7: a mounted [usePollIncidentAlerts] has bound its handler once to
    ["incident-change"], and every emission calls the [mutate] of the
    alerts resource once through it (put after what the handlers that
    were there before call); the cleanup it keeps unbinds the same event
    and handler, and after the unmount the handler is bound no more, the
    channel is as it was before the mount and an emission calls [mutate]
    through this hook zero times. *)
Theorem usePollIncidentAlerts_subscription ws api incidentId w datas :
  wf w ->
  let ev := "incident-change" in
  let mutate :=
    mutate (fst (useIncidentAlerts api incidentId None None None w)) in
  let mounted := usePollIncidentAlerts ws api incidentId unmounted w in
  let st := fst mounted in
  let w1 := snd mounted in
  let w2 := unmount st w1 in
  let others :=
    list_sum (map (fun d => subscriber_calls ev mutate d (channel w)) datas) in
  exists h,
    handler st = Some h
    /\ (forall d, hfun h d = [Call mutate])
    /\ channel w1 = (channel w ++ [(ev, h)])%list
    /\ Pusher.bound_count ev h w1 = 1
    /\ call_count mutate (emit_all uuidv4 ev datas w1)
       = call_count mutate w + others + length datas
    /\ effect st = Some ((ws, href h, false), Some (Unbind ev h))
    /\ channel w2 = channel w
    /\ Pusher.bound_count ev h w2 = 0
    /\ call_count mutate (emit_all uuidv4 ev datas w2)
       = call_count mutate w + others.
Proof.
  intros [Hch _] ev mutate mounted st w1 w2 others.
  destruct (usePollIncidentAlerts_mount ws api incidentId w) as (Hst & Hw1 & Hc1).
  fold mounted in Hst, Hw1, Hc1. fold st in Hst. fold w1 in Hw1, Hc1.
  cbv zeta in Hst, Hw1.
  assert (Hm : mutate = BoundMutate (alerts_key api incidentId))
    by apply useIncidentAlerts_mutate.
  rewrite <- Hm in Hst, Hw1. clearbody st w1 mutate. clear Hm mounted.
  set (h := {| href := next_ref w; hfun := fun _ => [Call mutate] |}) in *.
  assert (Hw2 : channel w2 = channel w).
  { unfold w2, unmount. rewrite Hst. simpl. rewrite Hw1.
    now apply (filter_unbinds _ _ (next_ref w)). }
  assert (Hc2 : calls w2 = calls w).
  { unfold w2, unmount. rewrite Hst. simpl. exact Hc1. }
  exists h. repeat apply conj.
  - now rewrite Hst.
  - reflexivity.
  - exact Hw1.
  - unfold Pusher.bound_count. rewrite Hw1.
    now apply (count_bound_once _ _ (next_ref w)).
  - rewrite call_count_emit_all, Hw1. unfold call_count at 1. rewrite Hc1.
    fold (call_count mutate w). unfold others.
    rewrite <- Nat.add_assoc. f_equal.
    subst ev. clear. induction datas as [|d ds IH]; simpl; [reflexivity|].
    rewrite IH, subscriber_calls_bound. unfold handler_calls. simpl.
    rewrite bool_decide_eq_true_2 by reflexivity. simpl. lia.
  - now rewrite Hst.
  - exact Hw2.
  - unfold Pusher.bound_count. rewrite Hw2.
    now apply (count_other_bindings _ _ (next_ref w)).
  - rewrite call_count_emit_all, Hw2. unfold call_count at 1. now rewrite Hc2.
Qed.

(** *** The state cell under emissions *)

Lemma uuid_drawn_run_actions acts w :
  uuid_drawn w <= uuid_drawn (fold_left (run_action uuidv4) acts w).
Proof.
  revert w. induction acts as [|a acts IH]; intros w; simpl; [lia|].
  etransitivity; [|apply IH]. destruct a; simpl; lia.
Qed.

Lemma uuid_drawn_run_handlers data hs w :
  uuid_drawn w <= uuid_drawn (fold_left (run_handler uuidv4 data) hs w).
Proof.
  revert w. induction hs as [|h hs IH]; intros w; simpl; [lia|].
  etransitivity; [|apply IH]. apply uuid_drawn_run_actions.
Qed.

Lemma cells_run_actions_other c acts w :
  ~ In (SetStateUuid c) acts ->
  cells (fold_left (run_action uuidv4) acts w) !! c = cells w !! c.
Proof.
  revert w. induction acts as [|a acts IH]; intros w Hnot; simpl; [reflexivity|].
  rewrite IH by (intros Hin; apply Hnot; now right).
  destruct a as [m|c']; simpl; [reflexivity|].
  apply lookup_insert_ne. intros ->. apply Hnot. now left.
Qed.

Lemma cells_run_handlers_other c data hs w :
  Forall (fun h => ~ In (SetStateUuid c) (hfun h data)) hs ->
  cells (fold_left (run_handler uuidv4 data) hs w) !! c = cells w !! c.
Proof.
  intros Hhs. revert w.
  induction Hhs as [|h hs Hh _ IH]; intros w; simpl; [reflexivity|].
  rewrite IH. now apply cells_run_actions_other.
Qed.

Lemma subscribers_set_no_new_cell ev data n c ch :
  Forall (fun b : string * Handler => handler_wf n (snd b)) ch ->
  n <= c ->
  Forall (fun h => ~ In (SetStateUuid c) (hfun h data))
    (Pusher.subscribers ev ch).
Proof.
  intros Hwf Hn. unfold Pusher.subscribers.
  induction Hwf as [|[e g] ch [_ Hg] _ IH]; simpl; [constructor|].
  destruct (String.eqb e ev); simpl; [|exact IH].
  constructor; [|exact IH]. intros Hin. apply Hg in Hin. lia.
Qed.

(** Without a subscription of the hook, an emission leaves its cell as it
    is. *)
Lemma emit_cell_unchanged ev data n c w :
  Forall (fun b : string * Handler => handler_wf n (snd b)) (channel w) ->
  n <= c ->
  cells (emit uuidv4 ev data w) !! c = cells w !! c.
Proof.
  intros Hwf Hn. apply cells_run_handlers_other.
  now apply (subscribers_set_no_new_cell _ _ n).
Qed.

(** One run of the handler of [usePollIncidents]. *)
Lemma run_poll_handler data m c h w :
  hfun h data = [Call m; SetStateUuid c] ->
  run_handler uuidv4 data w h
  = World.set_cell c (uuidv4 (uuid_drawn w))
      (World.draw_uuid (World.log_call m w)).
Proof. unfold run_handler. now intros ->. Qed.

(** The handler that was bound last runs last. *)
Lemma emit_bound_last ev data h ch w :
  channel w = (ch ++ [(ev, h)])%list ->
  emit uuidv4 ev data w
  = run_handler uuidv4 data
      (fold_left (run_handler uuidv4 data) (Pusher.subscribers ev ch) w) h.
Proof.
  intros Hch. unfold emit. rewrite Hch, subscribers_app, fold_left_app.
  unfold Pusher.subscribers at 1. simpl. now rewrite String.eqb_refl.
Qed.

(** With the handler of the hook bound last, an emission leaves in the
    cell a uuid that was drawn during the emission. *)
Lemma emit_cell_fresh ev data m c h ch w :
  channel w = (ch ++ [(ev, h)])%list ->
  hfun h data = [Call m; SetStateUuid c] ->
  exists k,
    uuid_drawn w <= k < uuid_drawn (emit uuidv4 ev data w)
    /\ cells (emit uuidv4 ev data w) !! c = Some (uuidv4 k).
Proof.
  intros Hch Hh. rewrite (emit_bound_last ev data h ch w Hch).
  set (mid := fold_left (run_handler uuidv4 data) (Pusher.subscribers ev ch) w).
  assert (Hmid : uuid_drawn w <= uuid_drawn mid)
    by apply uuid_drawn_run_handlers.
  rewrite (run_poll_handler data m c h mid Hh).
  unfold World.set_cell, World.draw_uuid, World.log_call. simpl.
  exists (uuid_drawn mid). split; [lia|]. apply lookup_insert_eq.
Qed.

(** *** Rendering [usePollIncidents] *)

Lemma usePollIncidents_mount ws m (p : bool) w :
  let c := next_ref w in
  let h := {| href := S (next_ref w);
              hfun := fun _ => [Call m; SetStateUuid c] |} in
  let r := usePollIncidents ws m (Some p) unmounted w in
  fst (fst r) = cells w !! c
  /\ snd (fst r)
     = {| state_cell := Some c; callback := Some ((m, c), h);
          effect := Some ((ws, href h, p),
                          if p then None
                          else Some (Unbind "incident-change" h)) |}
  /\ channel (snd r)
     = (if p then channel w
        else channel w ++ [("incident-change", h)])%list
  /\ calls (snd r) = calls w
  /\ cells (snd r) = cells w
  /\ uuid_drawn (snd r) = uuid_drawn w.
Proof. unfold usePollIncidents. destruct p; simpl; auto 10. Qed.

(** A render with the same [paused] does nothing; a render with the other
    value calls the cleanup of the last run and runs the effect again. *)
Lemma usePollIncidents_rerender_same ws m c h (p : bool) cl w :
  let st := {| state_cell := Some c; callback := Some ((m, c), h);
               effect := Some ((ws, href h, p), cl) |} in
  usePollIncidents ws m (Some p) st w = (cells w !! c, st, w).
Proof.
  unfold usePollIncidents. simpl.
  unfold useCallback. rewrite decide_True by reflexivity.
  unfold useEffect. now rewrite decide_True by reflexivity.
Qed.

Lemma usePollIncidents_rerender_toggled ws m c h (p : bool) cl w :
  let ev := "incident-change" in
  let st := {| state_cell := Some c; callback := Some ((m, c), h);
               effect := Some ((ws, href h, negb p), cl) |} in
  let r := usePollIncidents ws m (Some p) st w in
  snd (fst r)
  = {| state_cell := Some c; callback := Some ((m, c), h);
       effect := Some ((ws, href h, p),
                       if p then None else Some (Unbind ev h)) |}
  /\ snd r
     = (if p then run_cleanup cl w
        else Pusher.bind ev h (run_cleanup cl w)).
Proof.
  unfold usePollIncidents. simpl.
  unfold useCallback. rewrite decide_True by reflexivity.
  unfold useEffect. rewrite decide_False by (destruct p; simpl; congruence).
  now destruct p.
Qed.

Lemma call_count_calls m w w' :
  calls w' = calls w -> call_count m w' = call_count m w.
Proof. unfold call_count. now intros ->. Qed.

Lemma fresh_cell_undefined w : wf w -> cells w !! next_ref w = None.
Proof.
  intros [_ Hcells]. destruct (cells w !! next_ref w) eqn:E; [|reflexivity].
  assert (next_ref w < next_ref w) by (apply Hcells; rewrite E; eauto). lia.
Qed.

(** C8: a [usePollIncidents] that is rendered with [paused = true] has
    no subscription: mounted that way it binds nothing, and rendered that
    way after a render with [paused = false] it unbinds its handler; an
    emission then calls the mutator no more often than the handlers that
    were there before do, and leaves the token as it is. Each render that
    takes [paused] from [true] to [false] binds the handler, so that the
    next emission calls the mutator once more and sets the token to a
    uuid drawn during it. *)
Theorem usePollIncidents_paused ws m w d1 d2 d3 d4 :
  wf w ->
  let ev := "incident-change" in
  let r0 := usePollIncidents ws m (Some true) unmounted w in
  let st0 := snd (fst r0) in
  let wA := emit uuidv4 ev d1 (snd r0) in
  let r1 := usePollIncidents ws m (Some false) st0 wA in
  let st1 := snd (fst r1) in
  let wB := emit uuidv4 ev d2 (snd r1) in
  let r2 := usePollIncidents ws m (Some true) st1 wB in
  let st2 := snd (fst r2) in
  let wC := emit uuidv4 ev d3 (snd r2) in
  let r3 := usePollIncidents ws m (Some false) st2 wC in
  let st3 := snd (fst r3) in
  let wD := emit uuidv4 ev d4 (snd r3) in
  (channel (snd r0) = channel w
   /\ call_count m wA = call_count m w + subscriber_calls ev m d1 (channel w)
   /\ fst (fst r0) = None
   /\ token_of st0 wA = None)
  /\ ((exists h, handler st1 = Some h
                /\ channel (snd r1) = (channel w ++ [(ev, h)])%list)
      /\ call_count m wB
         = call_count m wA + subscriber_calls ev m d2 (channel w) + 1
      /\ exists k, uuid_drawn (snd r1) <= k < uuid_drawn wB
                   /\ token_of st1 wB = Some (uuidv4 k))
  /\ (channel (snd r2) = channel w
      /\ call_count m wC = call_count m wB + subscriber_calls ev m d3 (channel w)
      /\ token_of st2 wC = token_of st1 wB)
  /\ ((exists h, handler st3 = Some h
                /\ channel (snd r3) = (channel w ++ [(ev, h)])%list)
      /\ call_count m wD
         = call_count m wC + subscriber_calls ev m d4 (channel w) + 1
      /\ exists k, uuid_drawn (snd r3) <= k < uuid_drawn wD
                   /\ token_of st3 wD = Some (uuidv4 k)).
Proof.
  intros Hwf ev r0 st0 wA r1 st1 wB r2 st2 wC r3 st3 wD.
  pose proof Hwf as [Hch _].
  set (c := next_ref w).
  set (h := {| href := S c; hfun := fun _ => [Call m; SetStateUuid c] |}).
  (* mounted, paused *)
  destruct (usePollIncidents_mount ws m true w)
    as (Ht0 & Hst0 & Hch0 & Hca0 & Hce0 & _).
  cbv beta iota zeta in Ht0, Hst0, Hch0, Hca0, Hce0.
  change (usePollIncidents ws m (Some true) unmounted w)
    with r0 in Ht0, Hst0, Hch0, Hca0, Hce0.
  change (snd (fst r0)) with st0 in Hst0. fold c h in Hst0, Ht0.
  set (w0 := snd r0) in *. clearbody st0 w0.
  assert (HchA : channel wA = channel w)
    by (unfold wA; now rewrite emit_channel).
  assert (HceA : cells wA !! c = None).
  { unfold wA. rewrite (emit_cell_unchanged ev d1 (next_ref w) c w0).
    - rewrite Hce0. now apply fresh_cell_undefined.
    - now rewrite Hch0.
    - reflexivity. }
  (* paused toggled to false *)
  destruct (usePollIncidents_rerender_toggled ws m c h false None wA)
    as (Hst1 & Hw1).
  cbv beta iota zeta in Hst1, Hw1. change (negb false) with true in Hst1, Hw1.
  rewrite <- Hst0 in Hst1, Hw1.
  change (usePollIncidents ws m (Some false) st0 wA) with r1 in Hst1, Hw1.
  change (snd (fst r1)) with st1 in Hst1.
  set (w1 := snd r1) in *. clearbody st1 w1.
  assert (Hch1 : channel w1 = (channel w ++ [(ev, h)])%list)
    by (rewrite Hw1; simpl; now rewrite HchA).
  assert (HchB : channel wB = (channel w ++ [(ev, h)])%list)
    by (unfold wB; now rewrite emit_channel).
  (* paused again *)
  destruct (usePollIncidents_rerender_toggled ws m c h true
              (Some (Unbind "incident-change" h)) wB) as (Hst2 & Hw2).
  cbv beta iota zeta in Hst2, Hw2. change (negb true) with false in Hst2, Hw2.
  rewrite <- Hst1 in Hst2, Hw2.
  change (usePollIncidents ws m (Some true) st1 wB) with r2 in Hst2, Hw2.
  change (snd (fst r2)) with st2 in Hst2.
  set (w2 := snd r2) in *. clearbody st2 w2.
  assert (Hch2 : channel w2 = channel w).
  { rewrite Hw2. simpl. rewrite HchB.
    apply (filter_unbinds _ _ (next_ref w)); [exact Hch|simpl; lia]. }
  assert (HchC : channel wC = channel w)
    by (unfold wC; now rewrite emit_channel).
  (* and toggled to false once more *)
  destruct (usePollIncidents_rerender_toggled ws m c h false None wC)
    as (Hst3 & Hw3).
  cbv beta iota zeta in Hst3, Hw3. change (negb false) with true in Hst3, Hw3.
  rewrite <- Hst2 in Hst3, Hw3.
  change (usePollIncidents ws m (Some false) st2 wC) with r3 in Hst3, Hw3.
  change (snd (fst r3)) with st3 in Hst3.
  set (w3 := snd r3) in *. clearbody st3 w3.
  assert (Hch3 : channel w3 = (channel w ++ [(ev, h)])%list)
    by (rewrite Hw3; simpl; now rewrite HchC).
  repeat apply conj.
  - exact Hch0.
  - unfold wA. rewrite call_count_emit, Hch0.
    now rewrite (call_count_calls m w w0 Hca0).
  - rewrite Ht0. now apply fresh_cell_undefined.
  - rewrite Hst0. unfold token_of. cbn [state_cell]. exact HceA.
  - exists h. split; [now rewrite Hst1|exact Hch1].
  - unfold wB. rewrite call_count_emit, Hch1, subscriber_calls_bound.
    rewrite (call_count_calls m wA w1) by (now rewrite Hw1).
    unfold handler_calls. simpl.
    rewrite bool_decide_eq_true_2 by reflexivity. simpl. lia.
  - rewrite Hst1. unfold token_of. cbn [state_cell].
    apply (emit_cell_fresh ev d2 m c h (channel w) w1 Hch1). reflexivity.
  - exact Hch2.
  - unfold wC. rewrite call_count_emit, Hch2.
    now rewrite (call_count_calls m wB w2) by (now rewrite Hw2).
  - rewrite Hst2, Hst1. unfold token_of, wC. cbn [state_cell].
    etransitivity; [apply (emit_cell_unchanged ev d3 (next_ref w) c w2)|].
    + now rewrite Hch2.
    + reflexivity.
    + now rewrite Hw2.
  - exists h. split; [now rewrite Hst3|exact Hch3].
  - unfold wD. rewrite call_count_emit, Hch3, subscriber_calls_bound.
    rewrite (call_count_calls m wC w3) by (now rewrite Hw3).
    unfold handler_calls. simpl.
    rewrite bool_decide_eq_true_2 by reflexivity. simpl. lia.
  - rewrite Hst3. unfold token_of. cbn [state_cell].
    apply (emit_cell_fresh ev d4 m c h (channel w) w3 Hch3). reflexivity.
Qed.

(** C9: after [usePollIncidents] was mounted (not paused) and whatever
    events came before, one more ["incident-change"] event calls the
    supplied mutator once through the hook and leaves as
    [incidentChangeToken] a value that a call of [uuidv4()] returned
    during this very event, which is what the next render returns; each
    run of the handler logs one call of the mutator, draws one uuid and
    stores it in the cell of the token. *)
Theorem usePollIncidents_every_event ws m w datas data :
  let ev := "incident-change" in
  let r := usePollIncidents ws m None unmounted w in
  let st := snd (fst r) in
  let before := emit_all uuidv4 ev datas (snd r) in
  let after := emit uuidv4 ev data before in
  call_count m after
  = call_count m before + subscriber_calls ev m data (channel w) + 1
  /\ (exists k, uuid_drawn before <= k < uuid_drawn after
                /\ token_of st after = Some (uuidv4 k))
  /\ fst (fst (usePollIncidents ws m None st after)) = token_of st after
  /\ (exists h c,
        handler st = Some h /\ state_cell st = Some c
        /\ forall d w',
             run_handler uuidv4 d w' h
             = World.set_cell c (uuidv4 (uuid_drawn w'))
                 (World.draw_uuid (World.log_call m w'))).
Proof.
  intros ev r st before after.
  set (c := next_ref w).
  set (h := {| href := S c; hfun := fun _ => [Call m; SetStateUuid c] |}).
  destruct (usePollIncidents_mount ws m false w) as (_ & Hst & Hch & _).
  cbv beta iota zeta in Hst, Hch.
  change (usePollIncidents ws m (Some false) unmounted w) with r in Hst, Hch.
  change (snd (fst r)) with st in Hst. fold c h in Hst, Hch.
  assert (Hb : channel before = (channel w ++ [(ev, h)])%list)
    by (unfold before; now rewrite emit_all_channel).
  clearbody st before. repeat apply conj.
  - unfold after. rewrite call_count_emit, Hb, subscriber_calls_bound.
    unfold handler_calls. simpl.
    rewrite bool_decide_eq_true_2 by reflexivity. simpl. lia.
  - rewrite Hst. unfold token_of. cbn [state_cell].
    apply (emit_cell_fresh ev data m c h (channel w) before Hb). reflexivity.
  - rewrite Hst. unfold token_of. cbn [state_cell].
    change (usePollIncidents ws m None)
      with (usePollIncidents ws m (Some false)).
    now rewrite (usePollIncidents_rerender_same ws m c h false
                   (Some (Unbind "incident-change" h)) after).
  - exists h, c. rewrite Hst. repeat apply conj; try reflexivity.
Qed.

Lemma usePollIncidentComments_mount ws incidentId w :
  let m := useAlertAudit incidentId in
  let h := {| href := next_ref w; hfun := fun _ => [Call m] |} in
  let r := usePollIncidentComments useAlertAudit ws incidentId unmounted w in
  fst r = {| state_cell := None; callback := Some (m, h);
             effect := Some ((ws, next_ref w, false),
                             Some (Unbind "incident-comment" h)) |}
  /\ channel (snd r) = (channel w ++ [("incident-comment", h)])%list
  /\ calls (snd r) = calls w.
Proof. unfold usePollIncidentComments. simpl. auto. Qed.

(** C10: the handlers of the three poll hooks do the same for every
    payload, so also for one whose [incident_id] is null or is the id of
    another incident: each handler calls its mutate function (and that
    of [usePollIncidents] sets the token), and an emission to a mounted
    hook calls the mutate function once through it. *)
Theorem poll_handlers_ignore_payload ws api incidentId m w data :
  let rc := usePollIncidentComments useAlertAudit ws incidentId unmounted w in
  let ra := usePollIncidentAlerts ws api incidentId unmounted w in
  let ri := usePollIncidents ws m None unmounted w in
  let mc := useAlertAudit incidentId in
  let ma := mutate (fst (useIncidentAlerts api incidentId None None None w)) in
  ((exists h, handler (fst rc) = Some h /\ hfun h data = [Call mc])
   /\ call_count mc (emit uuidv4 "incident-comment" data (snd rc))
      = call_count mc w
        + subscriber_calls "incident-comment" mc data (channel w) + 1)
  /\ ((exists h, handler (fst ra) = Some h /\ hfun h data = [Call ma])
      /\ call_count ma (emit uuidv4 "incident-change" data (snd ra))
         = call_count ma w
           + subscriber_calls "incident-change" ma data (channel w) + 1)
  /\ ((exists h c, handler (snd (fst ri)) = Some h
                   /\ hfun h data = [Call m; SetStateUuid c])
      /\ call_count m (emit uuidv4 "incident-change" data (snd ri))
         = call_count m w
           + subscriber_calls "incident-change" m data (channel w) + 1).
Proof.
  intros rc ra ri mc ma.
  destruct (usePollIncidentComments_mount ws incidentId w) as (Hc & Hcc & Hcl).
  destruct (usePollIncidentAlerts_mount ws api incidentId w) as (Ha & Hac & Hal).
  destruct (usePollIncidents_mount ws m false w) as (_ & Hi & Hic & Hil & _).
  cbv beta iota zeta in Hc, Hcc, Hcl, Ha, Hac, Hal, Hi, Hic, Hil.
  rewrite <- (useIncidentAlerts_mutate api incidentId w) in Ha, Hac.
  fold ma in Ha, Hac. fold mc in Hc, Hcc.
  change (usePollIncidentComments useAlertAudit ws incidentId unmounted w)
    with rc in Hc, Hcc, Hcl.
  change (usePollIncidentAlerts ws api incidentId unmounted w)
    with ra in Ha, Hac, Hal.
  change (usePollIncidents ws m (Some false) unmounted w)
    with ri in Hi, Hic, Hil.
  clearbody rc ra ri ma mc. repeat apply conj.
  - rewrite Hc. eexists. split; reflexivity.
  - rewrite call_count_emit, Hcc, subscriber_calls_bound.
    rewrite (call_count_calls mc w _ Hcl). unfold handler_calls. simpl.
    rewrite bool_decide_eq_true_2 by reflexivity. simpl. lia.
  - rewrite Ha. eexists. split; reflexivity.
  - rewrite call_count_emit, Hac, subscriber_calls_bound.
    rewrite (call_count_calls ma w _ Hal). unfold handler_calls. simpl.
    rewrite bool_decide_eq_true_2 by reflexivity. simpl. lia.
  - rewrite Hi. do 2 eexists. split; reflexivity.
  - rewrite call_count_emit, Hic, subscriber_calls_bound.
    rewrite (call_count_calls m w _ Hil). unfold handler_calls. simpl.
    rewrite bool_decide_eq_true_2 by reflexivity. simpl. lia.
Qed.

(** *** The invariant on references *)

Lemma wf_init : wf World.init.
Proof.
  split; [constructor|]. intros c [v Hv]. simpl in Hv.
  now rewrite lookup_empty in Hv.
Defined.

End PollHookFacts.

(* ===================================================================== *)
(** * The invariant on references is kept *)
(* ===================================================================== *)

Section Invariant.

Variable uuidv4 : nat -> string.

Lemma handler_wf_mono n n' h : n <= n' -> handler_wf n h -> handler_wf n' h.
Proof.
  intros Hle [Hh Hc]. split; [lia|]. intros d c Hin.
  specialize (Hc d c Hin). lia.
Qed.

Lemma wf_alloc w : wf w -> wf (snd (World.alloc w)).
Proof.
  intros [Hch Hce]. split; simpl.
  - eapply List.Forall_impl; [|exact Hch].
    intros b. apply handler_wf_mono. lia.
  - intros c Hc. specialize (Hce c Hc). lia.
Qed.

Lemma wf_fetch url w : wf w -> wf (fetch url w).
Proof. unfold fetch. now case_decide. Qed.

Lemma wf_bind ev h w :
  wf w -> handler_wf (next_ref w) h -> wf (Pusher.bind ev h w).
Proof.
  intros [Hch Hce] Hh. split; simpl; [|exact Hce].
  apply Forall_app. split; [exact Hch|]. now constructor.
Qed.

Lemma wf_unbind ev h w : wf w -> wf (Pusher.unbind ev h w).
Proof.
  intros [Hch Hce]. split; simpl; [|exact Hce].
  rewrite List.Forall_forall in *. intros b Hb.
  apply List.filter_In in Hb. now apply Hch.
Qed.

Lemma next_ref_run_actions acts w :
  next_ref (fold_left (run_action uuidv4) acts w) = next_ref w.
Proof.
  revert w. induction acts as [|a acts IH]; intros w; simpl; [reflexivity|].
  rewrite IH. now destruct a.
Qed.

Lemma next_ref_run_handlers data hs w :
  next_ref (fold_left (run_handler uuidv4 data) hs w) = next_ref w.
Proof.
  revert w. induction hs as [|h hs IH]; intros w; simpl; [reflexivity|].
  rewrite IH. apply next_ref_run_actions.
Qed.

Lemma cells_bound_run_actions n acts w :
  (forall c, In (SetStateUuid c) acts -> c < n) ->
  (forall c, is_Some (cells w !! c) -> c < n) ->
  forall c, is_Some (cells (fold_left (run_action uuidv4) acts w) !! c) -> c < n.
Proof.
  revert w. induction acts as [|a acts IH]; intros w Hacts Hw; simpl; [exact Hw|].
  apply IH; [intros c Hc; apply Hacts; now right|].
  intros c. destruct a as [m|c']; simpl; [apply Hw|].
  destruct (decide (c' = c)) as [->|Hne].
  - intros _. apply Hacts. now left.
  - rewrite lookup_insert_ne by exact Hne. apply Hw.
Qed.

Lemma cells_bound_run_handlers n data hs w :
  Forall (handler_wf n) hs ->
  (forall c, is_Some (cells w !! c) -> c < n) ->
  forall c,
    is_Some (cells (fold_left (run_handler uuidv4 data) hs w) !! c) -> c < n.
Proof.
  intros Hhs. revert w.
  induction Hhs as [|h hs [_ Hh] _ IH]; intros w Hw; simpl; [exact Hw|].
  apply IH. apply cells_bound_run_actions; [apply Hh|exact Hw].
Qed.

Lemma subscribers_wf ev n ch :
  Forall (fun b : string * Handler => handler_wf n (snd b)) ch ->
  Forall (handler_wf n) (Pusher.subscribers ev ch).
Proof.
  intros Hch. unfold Pusher.subscribers.
  induction Hch as [|[e g] ch Hg _ IH]; simpl; [constructor|].
  destruct (String.eqb e ev); simpl; [|exact IH]. now constructor.
Qed.

Lemma wf_emit ev data w : wf w -> wf (emit uuidv4 ev data w).
Proof.
  intros [Hch Hce]. split.
  - rewrite emit_channel. unfold emit. now rewrite next_ref_run_handlers.
  - unfold emit. rewrite next_ref_run_handlers.
    apply cells_bound_run_handlers; [|exact Hce]. now apply subscribers_wf.
Qed.

(** Mounting and unmounting the poll hooks keeps the invariant, so a
    hook can be mounted again in the world an unmount leaves. *)
Lemma wf_usePollIncidentAlerts ws api incidentId w :
  wf w -> wf (snd (usePollIncidentAlerts ws api incidentId unmounted w)).
Proof.
  intros Hwf.
  set (m := BoundMutate (alerts_key api incidentId)).
  set (w' := snd (useIncidentAlerts api incidentId None None None w)).
  assert (Hw' : wf w').
  { unfold w', useIncidentAlerts. destruct (isReady api); simpl; [|exact Hwf].
    now apply wf_fetch. }
  replace (snd (usePollIncidentAlerts ws api incidentId unmounted w))
    with (Pusher.bind "incident-change"
            {| href := next_ref w'; hfun := fun _ => [Call m] |}
            (snd (World.alloc w'))).
  - apply wf_bind; [now apply wf_alloc|]. split; simpl; [lia|].
    intros _ c [Hc|[]]. discriminate.
  - unfold w', m, alerts_key, usePollIncidentAlerts, useIncidentAlerts.
    destruct (isReady api); reflexivity.
Qed.

Lemma wf_usePollIncidents ws m paused w :
  wf w -> wf (snd (usePollIncidents ws m paused unmounted w)).
Proof.
  intros Hwf.
  set (h := {| href := S (next_ref w);
               hfun := fun _ => [Call m; SetStateUuid (next_ref w)] |}).
  assert (Hw2 : wf (snd (World.alloc (snd (World.alloc w)))))
    by now do 2 apply wf_alloc.
  unfold usePollIncidents. destruct (default false paused); simpl.
  - exact Hw2.
  - apply (wf_bind "incident-change" h _ Hw2). split; simpl; [lia|].
    intros _ c [Hc|[Hc|[]]]; [discriminate|]. injection Hc as <-. lia.
Qed.

Lemma wf_unmount {CD} (st : Slots CD) w : wf w -> wf (unmount st w).
Proof.
  intros Hwf. unfold unmount.
  destruct (effect st) as [[d [[ev h]|]]|]; simpl; auto.
  now apply wf_unbind.
Qed.

End Invariant.

Lemma usePollIncidentAlerts_subscription_witness :
  let api := {| isReady := true |} in
  let mutate := BoundMutate (Some "/incidents/7/alerts?limit=20&offset=0") in
  let mounted := usePollIncidentAlerts 0 api "7" unmounted World.init in
  let d := {| incident_id := Some "7" |} in
  wf World.init
  /\ call_count mutate
       (emit_all example_uuidv4 "incident-change" [d; d] (snd mounted)) = 2
  /\ call_count mutate
       (emit_all example_uuidv4 "incident-change" [d; d]
          (unmount (fst mounted) (snd mounted))) = 0.
Proof.
  intros api mutate mounted d. split; [exact wf_init|].
  destruct (usePollIncidentAlerts_subscription example_uuidv4 0 api "7"
              World.init [d; d] wf_init)
    as (h & _ & _ & _ & _ & Hmounted & _ & _ & _ & Hunmounted).
  split; [exact Hmounted|exact Hunmounted].
Defined.

Lemma usePollIncidents_paused_witness :
  let m := ExternalMutate 0 in
  let d := {| incident_id := None |} in
  let r0 := usePollIncidents 0 m (Some true) unmounted World.init in
  let wA := emit example_uuidv4 "incident-change" d (snd r0) in
  let r1 := usePollIncidents 0 m (Some false) (snd (fst r0)) wA in
  let wB := emit example_uuidv4 "incident-change" d (snd r1) in
  wf World.init
  /\ call_count m wA = 0
  /\ token_of (snd (fst r0)) wA = None
  /\ call_count m wB = 1.
Proof.
  intros m d r0 wA r1 wB. split; [exact wf_init|].
  destruct (usePollIncidents_paused example_uuidv4 0 m World.init d d d d
              wf_init)
    as ((_ & HA & _ & HtA) & (_ & HB & _) & _).
  split; [exact HA|]. split; [exact HtA|].
  etransitivity; [exact HB|]. unfold wA. now rewrite HA.
Defined.

(* ===================================================================== *)
(** * More on the query string of [useIncidents] *)
(* ===================================================================== *)

Module FormDecodeFacts.
Import URLSearchParams FormDecode.

Lemma append_cons c (s1 s2 : string) : String c s1 ++ s2 = String c (s1 ++ s2).
Proof. reflexivity. Qed.

Lemma append_assoc (s1 s2 s3 : string) : (s1 ++ s2) ++ s3 = s1 ++ (s2 ++ s3).
Proof.
  induction s1 as [|c s1 IH]; [reflexivity|].
  now rewrite !append_cons, IH.
Qed.

Lemma append_nil_r (s : string) : s ++ EmptyString = s.
Proof.
  induction s as [|c s IH]; [reflexivity|]. now rewrite append_cons, IH.
Qed.

Lemma decode_encode_byte c s :
  decode (encode_byte c ++ s) = String c (decode s).
Proof. destruct c as [[] [] [] [] [] [] [] []]; reflexivity. Qed.

Lemma decode_encode s : decode (encode s) = s.
Proof.
  induction s as [|c s IH]; simpl; [reflexivity|].
  now rewrite decode_encode_byte, IH.
Qed.

Lemma encode_inj s1 s2 : encode s1 = encode s2 -> s1 = s2.
Proof. intros H. now rewrite <- (decode_encode s1), H, decode_encode. Qed.

Lemma occurs_app c s s' :
  occurs c (s ++ s') = occurs c s || occurs c s'.
Proof.
  induction s as [|a s IH]; simpl; [reflexivity|].
  now rewrite IH, orb_assoc.
Qed.

Lemma count_byte_app c s s' :
  count_byte c (s ++ s') = count_byte c s + count_byte c s'.
Proof. induction s as [|a s IH]; simpl; [reflexivity|]. rewrite IH. lia. Qed.

Lemma count_byte_absent c s : occurs c s = false -> count_byte c s = 0.
Proof.
  induction s as [|a s IH]; simpl; [reflexivity|].
  intros H. apply orb_false_iff in H as [-> H]. now rewrite IH.
Qed.

(** The serializer writes neither ["&"] nor ["="] for a byte of a name or
    a value. *)
Lemma encode_byte_no_amp c : occurs "&" (encode_byte c) = false.
Proof. destruct c as [[] [] [] [] [] [] [] []]; reflexivity. Qed.

Lemma encode_byte_no_eq c : occurs "=" (encode_byte c) = false.
Proof. destruct c as [[] [] [] [] [] [] [] []]; reflexivity. Qed.

Lemma encode_no_amp s : occurs "&" (encode s) = false.
Proof.
  induction s as [|c s IH]; simpl; [reflexivity|].
  now rewrite occurs_app, encode_byte_no_amp, IH.
Qed.

Lemma encode_no_eq s : occurs "=" (encode s) = false.
Proof.
  induction s as [|c s IH]; simpl; [reflexivity|].
  now rewrite occurs_app, encode_byte_no_eq, IH.
Qed.

(** A string is cut at the first occurrence of a byte in one way only. *)
Lemma cut_unique c a1 a2 r1 r2 :
  occurs c a1 = false -> occurs c a2 = false ->
  a1 ++ String c r1 = a2 ++ String c r2 -> a1 = a2 /\ r1 = r2.
Proof.
  revert a2. induction a1 as [|x a1 IH]; intros [|y a2] H1 H2 E; simpl in *.
  - injection E as ->. now split.
  - injection E as <- _. now rewrite Ascii.eqb_refl in H2.
  - injection E as -> _. now rewrite Ascii.eqb_refl in H1.
  - injection E as -> E. apply orb_false_iff in H1 as [_ H1].
    apply orb_false_iff in H2 as [_ H2].
    destruct (IH a2 H1 H2 E) as [-> ->]. now split.
Qed.

Lemma cut_absent c a1 a2 r :
  occurs c a2 = false -> a1 ++ String c r = a2 -> False.
Proof.
  intros H E. subst a2. rewrite occurs_app in H. simpl in H.
  rewrite Ascii.eqb_refl in H. simpl in H.
  now rewrite orb_true_r in H.
Qed.

Lemma toString_cons p ts :
  toString (p :: ts)
  = encode (fst p) ++ String "=" (encode (snd p) ++
      match ts with
      | [] => EmptyString
      | _ :: _ => String "&" (toString ts)
      end).
Proof.
  unfold toString, encode_tuple. simpl.
  destruct ts as [|p' ts]; simpl.
  - now rewrite append_nil_r.
  - now rewrite !append_assoc.
Qed.

(** Two lists of parameters that serialize to the same string are the
    same list. *)
Lemma toString_inj ps qs : toString ps = toString qs -> ps = qs.
Proof.
  revert qs. induction ps as [|[n v] ps IH]; intros [|[n' v'] qs] E.
  - reflexivity.
  - rewrite toString_cons in E. unfold toString in E. simpl in E.
    destruct (encode n'); discriminate.
  - rewrite toString_cons in E. unfold toString in E. simpl in E.
    destruct (encode n); discriminate.
  - rewrite !toString_cons in E. simpl in E.
    apply cut_unique in E as [En E]; try apply encode_no_eq.
    apply encode_inj in En. subst n'.
    destruct ps as [|p ps], qs as [|q qs].
    + rewrite !append_nil_r in E. apply encode_inj in E. now subst.
    + rewrite append_nil_r in E. symmetry in E.
      apply cut_absent in E; [easy|apply encode_no_amp].
    + rewrite append_nil_r in E.
      apply cut_absent in E; [easy|apply encode_no_amp].
    + apply cut_unique in E as [Ev E]; try apply encode_no_amp.
      apply encode_inj in Ev. subst v'. f_equal. now apply IH.
Qed.

Lemma number_toString_inj a b : number_toString a = number_toString b -> a = b.
Proof.
  unfold number_toString. intros E.
  assert (Ei : Some (Z.to_int a) = Some (Z.to_int b))
    by (rewrite <- !NilEmpty.isi; now rewrite E).
  injection Ei as Ei.
  now rewrite <- (DecimalZ.of_to a), <- (DecimalZ.of_to b), Ei.
Qed.

End FormDecodeFacts.

Section QueryStringFacts.

Variable dsize : Z.
Variable dsort : Sorting.

Lemma params_of_logical p :
  params_of dsize dsort p = logical_list (logical_params dsize dsort p).
Proof.
  destruct p as [c pr l o s ce].
  unfold params_of, resolve, logical_params, logical_list; simpl.
  rewrite !default_opt_default; simpl.
  generalize (default dsize l) (default 0%Z o) (default dsort s)
    (default EmptyString ce).
  intros n m srt q. unfold filtersParams.
  destruct c as [| |b], pr as [| |b'], q as [|a q]; reflexivity.
Qed.

Lemma bool_toString_inj a b : bool_toString a = bool_toString b -> a = b.
Proof. destruct a, b; simpl; congruence. Qed.

Lemma logical_list_inj l1 l2 : logical_list l1 = logical_list l2 -> l1 = l2.
Proof.
  destruct l1 as [[[[[c1 p1] n1] o1] s1] q1].
  destruct l2 as [[[[[c2 p2] n2] o2] s2] q2].
  unfold logical_list.
  destruct c1 as [c1|], c2 as [c2|], p1 as [p1|], p2 as [p2|],
    q1 as [|a1 q1], q2 as [|a2 q2];
    simpl; intros E; try discriminate; injection E; intros; subst;
    repeat match goal with
      | H : bool_toString _ = bool_toString _ |- _ =>
          apply bool_toString_inj in H; subst
      | H : number_toString _ = number_toString _ |- _ =>
          apply FormDecodeFacts.number_toString_inj in H; subst
      end;
    reflexivity.
Qed.

Lemma logical_list_size l :
  3 <= length (logical_list l) <= 6.
Proof.
  destruct l as [[[[[c pr] n] o] s] q]. unfold logical_list.
  destruct c, pr, (truthy_string q); simpl; lia.
Qed.

(** X1: with ready clients, two calls of [useIncidents] resolve to the
    same key exactly when they ask for the same thing: the same
    [candidate] and [predicted] after the defaults ([null] counting as
    left out), the same [limit] and [offset], the same value of the
    sorting parameter and the same [cel]. Calls that differ in one of
    these never share a key. *)
Theorem useIncidents_same_key_iff p1 p2 options1 options2 w1 w2 :
  key (fst (useIncidents dsize dsort {| isReady := true |} p1 options1 w1))
  = key (fst (useIncidents dsize dsort {| isReady := true |} p2 options2 w2))
  <-> logical_params dsize dsort p1 = logical_params dsize dsort p2.
Proof.
  rewrite !useIncidents_key, !params_of_logical.
  set (L1 := logical_list (logical_params dsize dsort p1)).
  set (L2 := logical_list (logical_params dsize dsort p2)).
  assert (H1 : 3 <= length L1 <= 6) by apply logical_list_size.
  assert (H2 : 3 <= length L2 <= 6) by apply logical_list_size.
  split.
  - intros E. apply logical_list_inj. fold L1 L2.
    unfold incidents_key, URLSearchParams.size in E. cbn [isReady] in E.
    destruct L1 as [|t1 l1]; [simpl in H1; lia|].
    destruct L2 as [|t2 l2]; [simpl in H2; lia|].
    cbn [length] in E. cbv iota in E. injection E as E.
    now apply FormDecodeFacts.toString_inj.
  - intros E. unfold L1, L2. now rewrite E.
Qed.

End QueryStringFacts.

Section QueryStringShape.

Variable dsize : Z.
Variable dsort : Sorting.

Lemma count_eq_toString (ps : URLSearchParams.t) :
  FormDecode.count_byte "=" (URLSearchParams.toString ps) = length ps.
Proof.
  induction ps as [|p ps IH]; [reflexivity|].
  rewrite FormDecodeFacts.toString_cons.
  rewrite FormDecodeFacts.count_byte_app. cbn [FormDecode.count_byte].
  rewrite FormDecodeFacts.count_byte_app.
  rewrite !FormDecodeFacts.count_byte_absent
    by apply FormDecodeFacts.encode_no_eq.
  destruct ps as [|q ps]; cbn [FormDecode.count_byte]; simpl Ascii.eqb.
  - reflexivity.
  - rewrite IH. simpl. lia.
Qed.

Lemma count_amp_toString (ps : URLSearchParams.t) :
  FormDecode.count_byte "&" (URLSearchParams.toString ps) = length ps - 1.
Proof.
  induction ps as [|p ps IH]; [reflexivity|].
  rewrite FormDecodeFacts.toString_cons.
  rewrite FormDecodeFacts.count_byte_app. cbn [FormDecode.count_byte].
  rewrite FormDecodeFacts.count_byte_app.
  rewrite !FormDecodeFacts.count_byte_absent
    by apply FormDecodeFacts.encode_no_amp.
  destruct ps as [|q ps]; cbn [FormDecode.count_byte]; simpl Ascii.eqb.
  - reflexivity.
  - rewrite IH. simpl. lia.
Qed.

(** X2: whatever the arguments, the parameters of [useIncidents] have
    pairwise different names that come in the order [candidate],
    [predicted], [limit], [offset], [sorting], [cel]; [limit], [offset]
    and [sorting] are always among them, so there are between three and
    six and the key of a ready client always has a query string. *)
Theorem useIncidents_parameter_names p :
  let ps := params_of dsize dsort p in
  let names := map fst ps in
  NoDup names
  /\ sublist names
       ["candidate"; "predicted"; "limit"; "offset"; "sorting"; "cel"]
  /\ sublist ["limit"; "offset"; "sorting"] names
  /\ 3 <= URLSearchParams.size ps <= 6.
Proof.
  cbv zeta. rewrite params_of_logical.
  destruct (logical_params dsize dsort p) as [[[[[c pr] n] o] s] q].
  unfold logical_list, URLSearchParams.size.
  destruct c, pr, (truthy_string q); simpl;
    (split; [repeat constructor; rewrite ?list_elem_of_In; simpl;
             intuition discriminate|]);
    (split; [|split; [|lia]]);
    repeat first [ apply sublist_nil | apply sublist_skip; []
                 | apply sublist_cons | apply sublist_skip ].
Qed.

(** X3: whatever bytes [cel] and the sorting id hold, the query string
    of [useIncidents] has one ["="] for each parameter and one ["&"]
    between two parameters and no other: a filter expression or a field
    name can neither add a parameter nor cut one short. *)
Theorem useIncidents_separators p :
  let ps := params_of dsize dsort p in
  FormDecode.count_byte "=" (URLSearchParams.toString ps)
  = URLSearchParams.size ps
  /\ FormDecode.count_byte "&" (URLSearchParams.toString ps)
     = URLSearchParams.size ps - 1.
Proof.
  cbv zeta. split; [apply count_eq_toString|apply count_amp_toString].
Qed.

End QueryStringShape.

(* ===================================================================== *)
(** * Keys of the hooks that take an incident id *)
(* ===================================================================== *)

Lemma truthy_string_app_r s s' :
  truthy_string s' = true -> truthy_string (s ++ s') = true.
Proof. destruct s; [easy|reflexivity]. Qed.

(** X4: the incident id is written into the key as it is, so the key of
    one hook for an id that goes on with a path is the key of another
    hook for the shorter id: [useIncident] for [id/future_incidents],
    [id/alerts?limit=l&offset=o] or [id/workflows?limit=l&offset=o]
    shares its key, and with it its cache entry, with
    [useIncidentFutureIncidents], [useIncidentAlerts] or
    [useIncidentWorkflowExecutions] for [id]. *)
Theorem incident_id_is_not_escaped api incidentId l o
    options1 options2 w1 w2 :
  key (fst (useIncident api (incidentId ++ "/future_incidents") options1 w1))
  = key (fst (useIncidentFutureIncidents api incidentId options2 w2))
  /\ key (fst (useIncident api
                 (incidentId ++ "/alerts?limit=" ++ number_toString l
                  ++ "&offset=" ++ number_toString o) options1 w1))
     = key (fst (useIncidentAlerts api incidentId (Some l) (Some o)
                   options2 w2))
  /\ key (fst (useIncident api
                 (incidentId ++ "/workflows?limit=" ++ number_toString l
                  ++ "&offset=" ++ number_toString o) options1 w1))
     = key (fst (useIncidentWorkflowExecutions api incidentId (Some l)
                   (Some o) options2 w2)).
Proof.
  unfold useIncident, useIncidentFutureIncidents, useIncidentAlerts,
    useIncidentWorkflowExecutions.
  rewrite !useSWR_key, !truthy_string_app_r by reflexivity.
  rewrite andb_true_r. cbn [default from_option]. now destruct (isReady api).
Qed.

(** X5: which calls resolve to the null key. [useIncident] does so when
    the client is not ready or the id is the empty string, and only then;
    the other hooks do so when the client is not ready and only then,
    whatever the id, the empty string included. *)
Theorem null_key_iff dsize dsort api incidentId p l o options w :
  (key (fst (useIncident api incidentId options w)) = None
   <-> isReady api = false \/ incidentId = EmptyString)
  /\ (key (fst (useIncidentAlerts api incidentId l o options w)) = None
      <-> isReady api = false)
  /\ (key (fst (useIncidentFutureIncidents api incidentId options w)) = None
      <-> isReady api = false)
  /\ (key (fst (useIncidentWorkflowExecutions api incidentId l o options w))
      = None <-> isReady api = false)
  /\ (key (fst (useIncidentsMeta api options w)) = None
      <-> isReady api = false)
  /\ (key (fst (useIncidents dsize dsort api p options w)) = None
      <-> isReady api = false).
Proof.
  rewrite useIncidents_key.
  unfold useIncident, useIncidentAlerts, useIncidentFutureIncidents,
    useIncidentWorkflowExecutions, useIncidentsMeta, incidents_key.
  rewrite !useSWR_key.
  destruct (isReady api), incidentId; simpl; intuition congruence.
Qed.

Lemma number_toString_no_amp n :
  FormDecode.occurs "&" (number_toString n) = false.
Proof.
  rewrite <- URLSearchParamsFacts.encode_number.
  apply FormDecodeFacts.encode_no_amp.
Qed.

Lemma append_inj_l (s a b : string) : s ++ a = s ++ b -> a = b.
Proof.
  induction s as [|c s IH]; [easy|].
  rewrite !FormDecodeFacts.append_cons. intros E. injection E as E. auto.
Qed.

(** X12: [usePollIncidentAlerts] calls [useIncidentAlerts] with the
    default page, so the [mutate] that its handler calls is the one of
    the key with [limit=20&offset=0]. With a ready client a
    [useIncidentAlerts] for the same incident has that key when its page
    is [limit = 20] and [offset = 0] and only then: an alerts list that
    shows another page has another key. *)
Theorem usePollIncidentAlerts_revalidates_default_page
    ws incidentId l o options w w' data :
  let api := {| isReady := true |} in
  let mounted := usePollIncidentAlerts ws api incidentId unmounted w in
  let polled :=
    Some ("/incidents/" ++ incidentId ++ "/alerts?limit=20&offset=0") in
  (exists h, handler (fst mounted) = Some h
             /\ hfun h data = [Call (BoundMutate polled)])
  /\ (key (fst (useIncidentAlerts api incidentId (Some l) (Some o)
                  options w')) = polled
      <-> l = 20%Z /\ o = 0%Z).
Proof.
  intros api mounted polled. split.
  - destruct (usePollIncidentAlerts_mount ws api incidentId w) as (Hst & _).
    cbv zeta in Hst. fold mounted in Hst. rewrite Hst.
    eexists. split; reflexivity.
  - unfold useIncidentAlerts. rewrite useSWR_key.
    cbn [isReady default from_option].
    unfold polled. split.
    + intros E. injection E as E.
      apply append_inj_l in E. apply append_inj_l in E.
      change "/alerts?limit=20&offset=0"
        with ("/alerts?limit=" ++ "20" ++ String "&" "offset=0") in E.
      change ("/alerts?limit=" ++ number_toString l ++ "&offset="
              ++ number_toString o)
        with ("/alerts?limit=" ++ number_toString l
              ++ String "&" ("offset=" ++ number_toString o)) in E.
      apply append_inj_l in E.
      apply FormDecodeFacts.cut_unique in E as [El Eo];
        [|apply number_toString_no_amp|reflexivity].
      change "offset=0" with ("offset=" ++ number_toString 0) in Eo.
      apply append_inj_l in Eo.
      split; apply FormDecodeFacts.number_toString_inj; assumption.
    + intros [-> ->]. reflexivity.
Qed.

(* ===================================================================== *)
(** * More on the poll hooks *)
(* ===================================================================== *)

Section PollHookLifecycle.

Variable uuidv4 : nat -> string.
Variable useAlertAudit : string -> Mutator.

(** With a handler bound last that calls [m] once per run, each emission
    calls [m] once more than the handlers before it do. *)
Lemma call_count_emit_all_bound ev m h ch datas w :
  channel w = (ch ++ [(ev, h)])%list ->
  (forall d, handler_calls m d h = 1) ->
  call_count m (emit_all uuidv4 ev datas w)
  = call_count m w
    + list_sum (map (fun d => subscriber_calls ev m d ch) datas)
    + length datas.
Proof.
  intros Hch Hh. rewrite call_count_emit_all, Hch.
  rewrite <- Nat.add_assoc. f_equal.
  induction datas as [|d ds IH]; simpl; [reflexivity|].
  rewrite IH, subscriber_calls_bound, Hh. lia.
Qed.

(** A handler bound to another event is not run. *)
Lemma subscriber_calls_other_event ev ev' m data ch h :
  ev' <> ev ->
  subscriber_calls ev m data (ch ++ [(ev', h)])%list
  = subscriber_calls ev m data ch.
Proof.
  intros Hne. unfold subscriber_calls.
  rewrite subscribers_app, List.map_app, list_sum_app.
  unfold Pusher.subscribers at 2. simpl.
  destruct (String.eqb ev' ev) eqn:E.
  - apply String.eqb_eq in E. contradiction.
  - simpl. lia.
Qed.

Lemma handler_calls_single m d h :
  hfun h d = [Call m] -> handler_calls m d h = 1.
Proof.
  unfold handler_calls. intros ->. simpl.
  now rewrite bool_decide_eq_true_2.
Qed.

(** X6: [usePollIncidentComments] binds one handler to
    ["incident-comment"] when it is mounted; every emission of that event
    then calls the [mutate] of the incident's activity once through it.
    The cleanup unbinds that event and handler: after the unmount the
    channel is as it was before the mount and an emission calls [mutate]
    through this hook zero times. *)
Theorem usePollIncidentComments_subscription ws incidentId w datas :
  wf w ->
  let ev := "incident-comment" in
  let m := useAlertAudit incidentId in
  let mounted :=
    usePollIncidentComments useAlertAudit ws incidentId unmounted w in
  let st := fst mounted in
  let w1 := snd mounted in
  let w2 := unmount st w1 in
  let others :=
    list_sum (map (fun d => subscriber_calls ev m d (channel w)) datas) in
  exists h,
    handler st = Some h
    /\ channel w1 = (channel w ++ [(ev, h)])%list
    /\ Pusher.bound_count ev h w1 = 1
    /\ call_count m (emit_all uuidv4 ev datas w1)
       = call_count m w + others + length datas
    /\ effect st = Some ((ws, href h, false), Some (Unbind ev h))
    /\ channel w2 = channel w
    /\ Pusher.bound_count ev h w2 = 0
    /\ call_count m (emit_all uuidv4 ev datas w2) = call_count m w + others.
Proof.
  intros [Hch _] ev m mounted st w1 w2 others.
  destruct (usePollIncidentComments_mount useAlertAudit ws incidentId w)
    as (Hst & Hw1 & Hc1).
  cbv zeta in Hst, Hw1. fold mounted in Hst, Hw1, Hc1.
  fold st in Hst. fold w1 in Hw1, Hc1. fold m in Hst, Hw1.
  set (h := {| href := next_ref w; hfun := fun _ => [Call m] |}) in *.
  clearbody st w1. clear mounted.
  assert (Hw2 : channel w2 = channel w).
  { unfold w2, unmount. rewrite Hst. simpl. rewrite Hw1.
    now apply (filter_unbinds _ _ (next_ref w)). }
  assert (Hc2 : calls w2 = calls w).
  { unfold w2, unmount. rewrite Hst. simpl. exact Hc1. }
  exists h. repeat apply conj.
  - now rewrite Hst.
  - exact Hw1.
  - unfold Pusher.bound_count. rewrite Hw1.
    now apply (count_bound_once _ _ (next_ref w)).
  - rewrite (call_count_emit_all_bound ev m h (channel w)); auto.
    + now rewrite (call_count_calls m w w1 Hc1).
    + intros d. now apply handler_calls_single.
  - now rewrite Hst.
  - exact Hw2.
  - unfold Pusher.bound_count. rewrite Hw2.
    now apply (count_other_bindings _ _ (next_ref w)).
  - rewrite call_count_emit_all, Hw2.
    now rewrite (call_count_calls m w w2 Hc2).
Qed.

Lemma subscribers_other_event ev ev' ch h :
  ev' <> ev ->
  Pusher.subscribers ev (ch ++ [(ev', h)])%list = Pusher.subscribers ev ch.
Proof.
  intros Hne. rewrite subscribers_app. unfold Pusher.subscribers at 2. simpl.
  destruct (String.eqb ev' ev) eqn:E.
  - apply String.eqb_eq in E. contradiction.
  - apply app_nil_r.
Qed.

(** X7: the handlers are bound by event name. An emission of an event
    other than ["incident-change"] runs neither the handler of
    [usePollIncidentAlerts] nor that of [usePollIncidents] (no call of
    their mutate functions beyond what the handlers that were there
    before do, and the token stays undefined), and an emission of an
    event other than ["incident-comment"] does not run the handler of
    [usePollIncidentComments]. *)
Theorem poll_hooks_other_events ws api incidentId m w ev ev' data :
  wf w ->
  ev <> "incident-change" ->
  ev' <> "incident-comment" ->
  let ra := usePollIncidentAlerts ws api incidentId unmounted w in
  let ri := usePollIncidents ws m None unmounted w in
  let rc := usePollIncidentComments useAlertAudit ws incidentId unmounted w in
  let ma := mutate (fst (useIncidentAlerts api incidentId None None None w)) in
  let mc := useAlertAudit incidentId in
  call_count ma (emit uuidv4 ev data (snd ra))
  = call_count ma w + subscriber_calls ev ma data (channel w)
  /\ call_count m (emit uuidv4 ev data (snd ri))
     = call_count m w + subscriber_calls ev m data (channel w)
  /\ token_of (snd (fst ri)) (emit uuidv4 ev data (snd ri)) = None
  /\ call_count mc (emit uuidv4 ev' data (snd rc))
     = call_count mc w + subscriber_calls ev' mc data (channel w).
Proof.
  intros Hwf Hev Hev' ra ri rc ma mc. pose proof Hwf as [Hch _].
  destruct (usePollIncidentComments_mount useAlertAudit ws incidentId w)
    as (_ & Hcc & Hcl).
  destruct (usePollIncidentAlerts_mount ws api incidentId w) as (_ & Hac & Hal).
  destruct (usePollIncidents_mount ws m false w)
    as (_ & Hi & Hic & Hil & Hie & _).
  cbv beta iota zeta in Hcc, Hac, Hi, Hic.
  change (usePollIncidentComments useAlertAudit ws incidentId unmounted w)
    with rc in Hcc, Hcl.
  change (usePollIncidentAlerts ws api incidentId unmounted w)
    with ra in Hac, Hal.
  change (usePollIncidents ws m (Some false) unmounted w)
    with ri in Hi, Hic, Hil, Hie.
  clearbody rc ra ri ma mc. repeat apply conj.
  - rewrite call_count_emit, Hac, subscriber_calls_other_event by auto.
    now rewrite (call_count_calls ma w _ Hal).
  - rewrite call_count_emit, Hic, subscriber_calls_other_event by auto.
    now rewrite (call_count_calls m w _ Hil).
  - rewrite Hi. unfold token_of. cbn [state_cell]. unfold emit.
    rewrite Hic, subscribers_other_event by auto.
    rewrite cells_run_handlers_other.
    + rewrite Hie. now apply fresh_cell_undefined.
    + now apply (subscribers_set_no_new_cell _ _ (next_ref w)).
  - rewrite call_count_emit, Hcc, subscriber_calls_other_event by auto.
    now rewrite (call_count_calls mc w _ Hcl).
Qed.

(** X8: unmounting a [usePollIncidents] that was mounted unpaused
    unbinds its handler: the channel is as before the mount and
    emissions call the mutator through the hook zero times. Mounting the
    hook again binds one new handler, once, and emissions call the
    mutator once each through it: no binding of the first mount is left.
    Unmounting a hook that was mounted paused changes nothing. *)
Theorem usePollIncidents_remount ws m w w' datas :
  wf w ->
  let ev := "incident-change" in
  let r1 := usePollIncidents ws m None unmounted w in
  let w2 := unmount (snd (fst r1)) (snd r1) in
  let r3 := usePollIncidents ws m None unmounted w2 in
  let rp := usePollIncidents ws m (Some true) unmounted w in
  let others :=
    list_sum (map (fun d => subscriber_calls ev m d (channel w)) datas) in
  channel w2 = channel w
  /\ call_count m (emit_all uuidv4 ev datas w2) = call_count m w + others
  /\ (exists h, handler (snd (fst r3)) = Some h
               /\ channel (snd r3) = (channel w ++ [(ev, h)])%list
               /\ Pusher.bound_count ev h (snd r3) = 1)
  /\ call_count m (emit_all uuidv4 ev datas (snd r3))
     = call_count m w + others + length datas
  /\ unmount (snd (fst rp)) w' = w'.
Proof.
  intros Hwf ev r1 w2 r3 rp others. pose proof Hwf as [Hch _].
  assert (Hwf2 : wf w2).
  { apply wf_unmount. now apply wf_usePollIncidents. }
  destruct (usePollIncidents_mount ws m false w)
    as (_ & Hst1 & Hch1 & Hca1 & _).
  cbv beta iota zeta in Hst1, Hch1.
  change (usePollIncidents ws m (Some false) unmounted w)
    with r1 in Hst1, Hch1, Hca1.
  clearbody r1.
  assert (Hw2 : channel w2 = channel w).
  { unfold w2, unmount. rewrite Hst1. simpl. rewrite Hch1.
    apply (filter_unbinds _ _ (next_ref w)); [exact Hch|simpl; lia]. }
  assert (Hc2 : calls w2 = calls w).
  { unfold w2, unmount. rewrite Hst1. simpl. exact Hca1. }
  clearbody w2. clear Hst1 Hch1 Hca1.
  destruct (usePollIncidents_mount ws m false w2)
    as (_ & Hst3 & Hch3 & Hca3 & _).
  cbv beta iota zeta in Hst3, Hch3.
  change (usePollIncidents ws m (Some false) unmounted w2)
    with r3 in Hst3, Hch3, Hca3.
  destruct (usePollIncidents_mount ws m true w) as (_ & Hstp & _).
  cbv beta iota zeta in Hstp.
  change (usePollIncidents ws m (Some true) unmounted w) with rp in Hstp.
  clearbody r3 rp.
  set (h := {| href := S (next_ref w2);
               hfun := fun _ => [Call m; SetStateUuid (next_ref w2)] |}) in *.
  rewrite Hw2 in Hch3.
  repeat apply conj.
  - exact Hw2.
  - rewrite call_count_emit_all, Hw2.
    now rewrite (call_count_calls m w w2 Hc2).
  - exists h. rewrite Hst3. repeat apply conj; [reflexivity|exact Hch3|].
    unfold Pusher.bound_count. rewrite Hch3.
    apply (count_bound_once _ _ (next_ref w2)); [|simpl; lia].
    destruct Hwf2 as [Hch2 _]. now rewrite Hw2 in Hch2.
  - rewrite (call_count_emit_all_bound ev m h (channel w)); auto.
    + rewrite (call_count_calls m w2 _ Hca3).
      now rewrite (call_count_calls m w w2 Hc2).
    + intros d. unfold handler_calls. simpl.
      now rewrite bool_decide_eq_true_2.
  - unfold unmount. now rewrite Hstp.
Qed.

(** A render of [usePollIncidents] with another mutator makes a new
    handler, calls the cleanup of the last run of the effect and binds
    the new handler. *)
Lemma usePollIncidents_rerender_mutator ws m m' c h cl w :
  m' <> m ->
  href h <> next_ref w ->
  let ev := "incident-change" in
  let h' := {| href := next_ref w;
               hfun := fun _ => [Call m'; SetStateUuid c] |} in
  let st := {| state_cell := Some c; callback := Some ((m, c), h);
               effect := Some ((ws, href h, false), cl) |} in
  let r := usePollIncidents ws m' (Some false) st w in
  snd (fst r)
  = {| state_cell := Some c; callback := Some ((m', c), h');
       effect := Some ((ws, href h', false), Some (Unbind ev h')) |}
  /\ snd r = Pusher.bind ev h' (run_cleanup cl (snd (World.alloc w))).
Proof.
  intros Hm Hh. unfold usePollIncidents. simpl.
  unfold useCallback. rewrite decide_False by congruence. simpl.
  unfold useEffect. rewrite decide_False by congruence. now simpl.
Qed.

(** X9: when [usePollIncidents] is rendered with another
    [mutateIncidents], the handler of the old one is unbound and a new
    handler is bound in its place, once; it writes the same token cell.
    Emissions from then on call the new mutator once each and call the
    old one through the hook no more. *)
Theorem usePollIncidents_new_mutator ws m m' w datas :
  wf w ->
  m' <> m ->
  let ev := "incident-change" in
  let r1 := usePollIncidents ws m None unmounted w in
  let st1 := snd (fst r1) in
  let r2 := usePollIncidents ws m' None st1 (snd r1) in
  let st2 := snd (fst r2) in
  (exists h' c,
     handler st2 = Some h'
     /\ state_cell st1 = Some c /\ state_cell st2 = Some c
     /\ (forall d, hfun h' d = [Call m'; SetStateUuid c])
     /\ channel (snd r2) = (channel w ++ [(ev, h')])%list
     /\ Pusher.bound_count ev h' (snd r2) = 1)
  /\ call_count m' (emit_all uuidv4 ev datas (snd r2))
     = call_count m' w
       + list_sum (map (fun d => subscriber_calls ev m' d (channel w)) datas)
       + length datas
  /\ call_count m (emit_all uuidv4 ev datas (snd r2))
     = call_count m w
       + list_sum (map (fun d => subscriber_calls ev m d (channel w)) datas).
Proof.
  intros Hwf Hm ev r1 st1 r2 st2. pose proof Hwf as [Hch _].
  set (c := next_ref w).
  set (h := {| href := S c; hfun := fun _ => [Call m; SetStateUuid c] |}).
  assert (Hn1 : next_ref (snd r1) = S (S c)) by reflexivity.
  destruct (usePollIncidents_mount ws m false w)
    as (_ & Hst1 & Hch1 & Hca1 & _).
  cbv beta iota zeta in Hst1, Hch1.
  change (usePollIncidents ws m (Some false) unmounted w)
    with r1 in Hst1, Hch1, Hca1.
  change (snd (fst r1)) with st1 in Hst1. fold c h in Hst1, Hch1.
  set (w1 := snd r1) in *. clearbody st1 w1. clear r1.
  set (h' := {| href := next_ref w1;
                hfun := fun _ => [Call m'; SetStateUuid c] |}).
  destruct (usePollIncidents_rerender_mutator ws m m' c h
              (Some (Unbind "incident-change" h)) w1 Hm)
    as (Hst2 & Hw2); [simpl; lia|].
  cbv beta iota zeta in Hst2, Hw2. rewrite <- Hst1 in Hst2, Hw2.
  change (usePollIncidents ws m' (Some false) st1 w1) with r2 in Hst2, Hw2.
  change (snd (fst r2)) with st2 in Hst2. fold h' in Hst2, Hw2.
  set (w2 := snd r2) in *. clearbody st2 w2. clear r2.
  assert (Hch2 : channel w2 = (channel w ++ [(ev, h')])%list).
  { rewrite Hw2. simpl. rewrite Hch1. f_equal.
    apply (filter_unbinds _ _ (next_ref w)); [exact Hch|simpl; lia]. }
  assert (Hca2 : calls w2 = calls w) by (rewrite Hw2; simpl; exact Hca1).
  repeat apply conj.
  - exists h', c. rewrite Hst2, Hst1. repeat apply conj; try reflexivity.
    + exact Hch2.
    + unfold Pusher.bound_count. rewrite Hch2.
      apply (count_bound_once _ _ (next_ref w)); [exact Hch|].
      simpl. lia.
  - rewrite (call_count_emit_all_bound ev m' h' (channel w)); auto.
    + now rewrite (call_count_calls m' w w2 Hca2).
    + intros d. unfold handler_calls. simpl.
      now rewrite bool_decide_eq_true_2.
  - rewrite call_count_emit_all, Hch2.
    rewrite (call_count_calls m w w2 Hca2). f_equal. f_equal.
    apply List.map_ext. intros d. rewrite subscriber_calls_bound.
    unfold handler_calls. simpl.
    rewrite bool_decide_eq_false_2 by congruence. simpl. lia.
Qed.

(** X10: a render of a mounted poll hook with the arguments of the last
    render binds and unbinds nothing, in whatever world it happens: for
    [usePollIncidents] and [usePollIncidentComments] the world and the
    slots are as before (and [usePollIncidents] returns the token the
    cell holds), for [usePollIncidentAlerts] the slots, the channel and
    the calls are (its [useIncidentAlerts] may fetch). *)
Theorem poll_hooks_rerender ws api incidentId m paused w w' :
  let ri := usePollIncidents ws m paused unmounted w in
  let rc := usePollIncidentComments useAlertAudit ws incidentId unmounted w in
  let ra := usePollIncidentAlerts ws api incidentId unmounted w in
  let ra' := usePollIncidentAlerts ws api incidentId (fst ra) w' in
  usePollIncidents ws m paused (snd (fst ri)) w'
  = (token_of (snd (fst ri)) w', snd (fst ri), w')
  /\ usePollIncidentComments useAlertAudit ws incidentId (fst rc) w'
     = (fst rc, w')
  /\ fst ra' = fst ra
  /\ channel (snd ra') = channel w'
  /\ calls (snd ra') = calls w'.
Proof.
  intros ri rc ra ra'. repeat apply conj.
  - destruct (usePollIncidents_mount ws m (default false paused) w)
      as (_ & Hst & _).
    cbv beta iota zeta in Hst.
    change (usePollIncidents ws m (Some (default false paused)) unmounted w)
      with ri in Hst.
    rewrite Hst. unfold token_of. cbn [state_cell].
    change (usePollIncidents ws m paused)
      with (usePollIncidents ws m (Some (default false paused))).
    apply usePollIncidents_rerender_same.
  - destruct (usePollIncidentComments_mount useAlertAudit ws incidentId w)
      as (Hst & _).
    cbv zeta in Hst. fold rc in Hst. rewrite Hst.
    unfold usePollIncidentComments. simpl.
    unfold useCallback. rewrite decide_True by reflexivity.
    unfold useEffect. now rewrite decide_True by reflexivity.
  - destruct (usePollIncidentAlerts_mount ws api incidentId w) as (Hst & _).
    cbv zeta in Hst. fold ra in Hst. unfold ra'. rewrite Hst.
    unfold usePollIncidentAlerts.
    destruct (useIncidentAlerts api incidentId None None None w')
      as [swr w''] eqn:E.
    assert (Hm : mutate swr = BoundMutate (alerts_key api incidentId)).
    { change swr with (fst (swr, w'')). rewrite <- E.
      apply useIncidentAlerts_mutate. }
    rewrite Hm. simpl.
    unfold useCallback. rewrite decide_True by reflexivity.
    unfold useEffect. now rewrite decide_True by reflexivity.
  - destruct (usePollIncidentAlerts_mount ws api incidentId w) as (Hst & _).
    cbv zeta in Hst. fold ra in Hst. unfold ra'. rewrite Hst.
    unfold usePollIncidentAlerts.
    destruct (useIncidentAlerts_frame api incidentId None None None w')
      as (Hch & _).
    destruct (useIncidentAlerts api incidentId None None None w')
      as [swr w''] eqn:E.
    assert (Hm : mutate swr = BoundMutate (alerts_key api incidentId)).
    { change swr with (fst (swr, w'')). rewrite <- E.
      apply useIncidentAlerts_mutate. }
    rewrite Hm. simpl.
    unfold useCallback. rewrite decide_True by reflexivity.
    unfold useEffect. rewrite decide_True by reflexivity. exact Hch.
  - destruct (usePollIncidentAlerts_mount ws api incidentId w) as (Hst & _).
    cbv zeta in Hst. fold ra in Hst. unfold ra'. rewrite Hst.
    unfold usePollIncidentAlerts.
    destruct (useIncidentAlerts_frame api incidentId None None None w')
      as (_ & Hca & _).
    destruct (useIncidentAlerts api incidentId None None None w')
      as [swr w''] eqn:E.
    assert (Hm : mutate swr = BoundMutate (alerts_key api incidentId)).
    { change swr with (fst (swr, w'')). rewrite <- E.
      apply useIncidentAlerts_mutate. }
    rewrite Hm. simpl.
    unfold useCallback. rewrite decide_True by reflexivity.
    unfold useEffect. rewrite decide_True by reflexivity. exact Hca.
Qed.

(** X11: if [uuidv4] never returns a value twice, the tokens that
    [usePollIncidents] holds after two events in a row are defined and
    different, whatever events came before: a consumer that compares the
    token with the one it saw last notices every event. *)
Theorem usePollIncidents_tokens_differ ws m w datas d1 d2 :
  (forall i j, uuidv4 i = uuidv4 j -> i = j) ->
  let ev := "incident-change" in
  let r := usePollIncidents ws m None unmounted w in
  let st := snd (fst r) in
  let before := emit_all uuidv4 ev datas (snd r) in
  let after1 := emit uuidv4 ev d1 before in
  let after2 := emit uuidv4 ev d2 after1 in
  is_Some (token_of st after1)
  /\ is_Some (token_of st after2)
  /\ token_of st after1 <> token_of st after2.
Proof.
  intros Hinj ev r st before after1 after2.
  set (c := next_ref w).
  set (h := {| href := S c; hfun := fun _ => [Call m; SetStateUuid c] |}).
  destruct (usePollIncidents_mount ws m false w) as (_ & Hst & Hch & _).
  cbv beta iota zeta in Hst, Hch.
  change (usePollIncidents ws m (Some false) unmounted w) with r in Hst, Hch.
  change (snd (fst r)) with st in Hst. fold c h in Hst, Hch.
  assert (Hb : channel before = (channel w ++ [(ev, h)])%list)
    by (unfold before; now rewrite emit_all_channel).
  assert (Ha : channel after1 = (channel w ++ [(ev, h)])%list)
    by (unfold after1; now rewrite emit_channel).
  clearbody st before.
  destruct (emit_cell_fresh uuidv4 ev d1 m c h (channel w) before Hb eq_refl)
    as (k1 & Hk1 & Ht1).
  fold after1 in Hk1, Ht1. clearbody after1.
  destruct (emit_cell_fresh uuidv4 ev d2 m c h (channel w) after1 Ha eq_refl)
    as (k2 & Hk2 & Ht2).
  fold after2 in Hk2, Ht2. clearbody after2.
  rewrite Hst. unfold token_of. cbn [state_cell]. rewrite Ht1, Ht2.
  repeat apply conj; [eauto|eauto|].
  intros E. injection E as E. apply Hinj in E. lia.
Qed.

End PollHookLifecycle.

Lemma example_uuidv4_inj i j : example_uuidv4 i = example_uuidv4 j -> i = j.
Proof.
  unfold example_uuidv4. intros E.
  rewrite !FormDecodeFacts.append_cons in E. injection E as E.
  apply FormDecodeFacts.number_toString_inj in E. lia.
Defined.

Lemma usePollIncidentComments_subscription_witness :
  let m := example_useAlertAudit "7" in
  let mounted :=
    usePollIncidentComments example_useAlertAudit 0 "7" unmounted World.init in
  let d := {| incident_id := Some "7" |} in
  wf World.init
  /\ call_count m
       (emit_all example_uuidv4 "incident-comment" [d; d; d] (snd mounted))
     = 3
  /\ call_count m
       (emit_all example_uuidv4 "incident-comment" [d; d; d]
          (unmount (fst mounted) (snd mounted))) = 0.
Proof.
  intros m mounted d. split; [exact wf_init|].
  destruct (usePollIncidentComments_subscription example_uuidv4
              example_useAlertAudit 0 "7" World.init [d; d; d] wf_init)
    as (h & _ & _ & _ & Hmounted & _ & _ & _ & Hunmounted).
  split; [exact Hmounted|exact Hunmounted].
Defined.

Lemma poll_hooks_other_events_witness :
  let m := ExternalMutate 1 in
  let d := {| incident_id := None |} in
  let ri := usePollIncidents 0 m None unmounted World.init in
  let rc :=
    usePollIncidentComments example_useAlertAudit 0 "7" unmounted World.init in
  (wf World.init
   /\ "incident-comment" <> "incident-change"
   /\ "incident-change" <> "incident-comment")
  /\ call_count m (emit example_uuidv4 "incident-comment" d (snd ri)) = 0
  /\ token_of (snd (fst ri)) (emit example_uuidv4 "incident-comment" d (snd ri))
     = None
  /\ call_count (example_useAlertAudit "7")
       (emit example_uuidv4 "incident-change" d (snd rc)) = 0.
Proof.
  intros m d ri rc.
  assert (H1 : "incident-comment" <> "incident-change") by discriminate.
  assert (H2 : "incident-change" <> "incident-comment") by discriminate.
  split; [split; [exact wf_init|split; assumption]|].
  destruct (poll_hooks_other_events example_uuidv4 example_useAlertAudit 0
              {| isReady := true |} "7" m World.init
              "incident-comment" "incident-change" d wf_init H1 H2)
    as (_ & Hi & Ht & Hc).
  split; [exact Hi|]. split; [exact Ht|exact Hc].
Defined.

Lemma usePollIncidents_remount_witness :
  let m := ExternalMutate 1 in
  let d := {| incident_id := None |} in
  let r1 := usePollIncidents 0 m None unmounted World.init in
  let w2 := unmount (snd (fst r1)) (snd r1) in
  let r3 := usePollIncidents 0 m None unmounted w2 in
  wf World.init
  /\ channel w2 = []
  /\ call_count m (emit_all example_uuidv4 "incident-change" [d; d] (snd r3))
     = 2.
Proof.
  intros m d r1 w2 r3. split; [exact wf_init|].
  destruct (usePollIncidents_remount example_uuidv4 0 m World.init World.init
              [d; d] wf_init)
    as (Hch & _ & _ & Hcalls & _).
  split; [exact Hch|exact Hcalls].
Defined.

Lemma usePollIncidents_new_mutator_witness :
  let m := ExternalMutate 1 in
  let m' := ExternalMutate 2 in
  let d := {| incident_id := None |} in
  let r1 := usePollIncidents 0 m None unmounted World.init in
  let r2 := usePollIncidents 0 m' None (snd (fst r1)) (snd r1) in
  (wf World.init /\ m' <> m)
  /\ call_count m' (emit_all example_uuidv4 "incident-change" [d; d] (snd r2))
     = 2
  /\ call_count m (emit_all example_uuidv4 "incident-change" [d; d] (snd r2))
     = 0.
Proof.
  intros m m' d r1 r2.
  assert (Hm : m' <> m) by discriminate.
  split; [split; [exact wf_init|exact Hm]|].
  destruct (usePollIncidents_new_mutator example_uuidv4 0 m m' World.init
              [d; d] wf_init Hm)
    as (_ & Hnew & Hold).
  split; [exact Hnew|exact Hold].
Defined.

Lemma usePollIncidents_tokens_differ_witness :
  let m := ExternalMutate 1 in
  let d := {| incident_id := None |} in
  let r := usePollIncidents 0 m None unmounted World.init in
  let after1 := emit example_uuidv4 "incident-change" d (snd r) in
  let after2 := emit example_uuidv4 "incident-change" d after1 in
  (forall i j, example_uuidv4 i = example_uuidv4 j -> i = j)
  /\ token_of (snd (fst r)) after1 <> token_of (snd (fst r)) after2.
Proof.
  intros m d r after1 after2. split; [exact example_uuidv4_inj|].
  destruct (usePollIncidents_tokens_differ example_uuidv4 0 m World.init
              [] d d example_uuidv4_inj)
    as (_ & _ & Hne).
  exact Hne.
Defined.

(* ===================================================================== *)
(** * The standalone workflow YAML editor *)
(* ===================================================================== *)

Module WorkflowYAMLEditorStandaloneFacts.
Import WorkflowYAMLEditorStandalone.

Section EditorFacts.

Context {Parsed DefinitionV2 Provider YamlValidationError : Type}.
Variable parseWorkflow : string -> list Provider -> option Parsed.
Variable wrapDefinitionV2 : Parsed -> bool -> option DefinitionV2.
Variable getOrderedWorkflowYamlString : string -> string.

Local Abbreviation St := (State DefinitionV2 YamlValidationError).
Local Abbreviation change :=
  (handleContentChange parseWorkflow wrapDefinitionV2).
Local Abbreviation changes :=
  (handleContentChanges parseWorkflow wrapDefinitionV2).
Local Abbreviation parse :=
  (parseYamlToDefinition parseWorkflow wrapDefinitionV2).

(** Parsing touches the definition and the console only. *)
Lemma parse_frame providers yaml (st : St) :
  let st' := parse providers yaml st in
  editorRef st' = editorRef st
  /\ isSaving st' = isSaving st
  /\ hasChanges st' = hasChanges st
  /\ originalContent st' = originalContent st
  /\ lastDeployedAt st' = lastDeployedAt st
  /\ updateWorkflow_calls st' = updateWorkflow_calls st
  /\ validationErrors st' = validationErrors st.
Proof.
  unfold parseYamlToDefinition.
  destruct (parseWorkflow yaml _) as [parsed|]; [|simpl; auto 10].
  destruct (wrapDefinitionV2 parsed true); simpl; auto 10.
Qed.

(** A change event touches neither the saving flag nor the original
    content nor the editor nor the calls of [updateWorkflow]. *)
Lemma change_frame providers value (st : St) :
  let st' := change providers value st in
  editorRef st' = editorRef st
  /\ isSaving st' = isSaving st
  /\ originalContent st' = originalContent st
  /\ lastDeployedAt st' = lastDeployedAt st
  /\ updateWorkflow_calls st' = updateWorkflow_calls st.
Proof.
  unfold handleContentChange. destruct value as [v|]; [|simpl; auto].
  destruct (truthy_string v); [|simpl; auto].
  destruct (parse_frame providers v
              (setHasChanges (negb (String.eqb v (originalContent st))) st))
    as (H1 & H2 & _ & H4 & H5 & H6 & _).
  cbv zeta in *. rewrite H1, H2, H4, H5, H6. simpl. auto.
Qed.

Lemma changes_frame providers values (st : St) :
  let st' := changes providers values st in
  editorRef st' = editorRef st
  /\ isSaving st' = isSaving st
  /\ originalContent st' = originalContent st
  /\ lastDeployedAt st' = lastDeployedAt st
  /\ updateWorkflow_calls st' = updateWorkflow_calls st.
Proof.
  unfold handleContentChanges. revert st.
  induction values as [|v vs IH]; intros st; simpl; [auto|].
  destruct (IH (change providers v st)) as (H1 & H2 & H3 & H4 & H5).
  destruct (change_frame providers v st) as (G1 & G2 & G3 & G4 & G5).
  cbv zeta in *. rewrite H1, H2, H3, H4, H5. auto.
Qed.

(** X13: a change event without a value or with the empty string
    changes nothing, so emptying the editor does not mark the workflow
    as changed. A change event with a non-empty value sets [hasChanges]
    to whether the value differs from the original content, and
    replaces the definition when the value parses; when the parser
    throws, the definition of the last successful parse is kept and the
    failure is logged. *)
Theorem handleContentChange_cases providers v (st : St) :
  change providers None st = st
  /\ change providers (Some EmptyString) st = st
  /\ (truthy_string v = true ->
      let st' := change providers (Some v) st in
      hasChanges st' = negb (String.eqb v (originalContent st))
      /\ (hasChanges st' = false <-> v = originalContent st)
      /\ match parseWorkflow v (default [] providers) with
         | Some parsed =>
             match wrapDefinitionV2 parsed true with
             | Some d => definition st' = Some d
                         /\ console_errors st' = console_errors st
             | None => definition st' = definition st
                       /\ console_errors st'
                          = (console_errors st
                             ++ ["Failed to parse YAML:"])%list
             end
         | None => definition st' = definition st
                   /\ console_errors st'
                      = (console_errors st ++ ["Failed to parse YAML:"])%list
         end).
Proof.
  split; [reflexivity|]. split; [reflexivity|]. intros Hv st'.
  unfold st', handleContentChange. rewrite Hv.
  destruct (parse_frame providers v
              (setHasChanges (negb (String.eqb v (originalContent st))) st))
    as (_ & _ & H3 & _).
  cbv zeta in H3. rewrite H3. simpl. split; [reflexivity|]. split.
  - rewrite negb_false_iff. apply String.eqb_eq.
  - unfold parseYamlToDefinition.
    destruct (parseWorkflow v _) as [parsed|]; [|simpl; auto].
    destruct (wrapDefinitionV2 parsed true); simpl; auto.
Qed.


(** X14: a save that gets as far as [updateWorkflow] sends the id and
    the text of the editor, once. Until it settles the save button is
    disabled and reads ["Saving..."], whatever change events arrive.
    When [updateWorkflow] resolves, the text that was sent becomes the
    original content and [hasChanges] is false, also when change events
    arrived in between: what was typed while the save was under way
    counts as saved, and the button stays disabled. *)
Theorem save_resolved workflowId editor providers values now (st : St) :
  editorRef st = Some editor ->
  truthy_string workflowId = true ->
  let started := handleSaveWorkflow workflowId st in
  let content := getValue editor in
  let during := changes providers values (fst started) in
  let settled := handleSaveWorkflow_settled true content now during in
  snd started = Some content
  /\ updateWorkflow_calls settled
     = (updateWorkflow_calls st ++ [(workflowId, content)])%list
  /\ save_disabled during = true
  /\ save_label during = "Saving..."
  /\ originalContent settled = content
  /\ hasChanges settled = false
  /\ isSaving settled = false
  /\ lastDeployedAt settled = Some now
  /\ save_disabled settled = true.
Proof.
  intros Hed Hid started content during settled.
  assert (Hs : started
               = (call_updateWorkflow workflowId content (setIsSaving true st),
                  Some content)).
  { unfold started, handleSaveWorkflow. now rewrite Hed, Hid. }
  destruct (changes_frame providers values (fst started))
    as (_ & H2 & _ & _ & H5).
  fold during in H2, H5. rewrite Hs in H2, H5. simpl in H2, H5.
  clearbody during. repeat apply conj; try reflexivity.
  - now rewrite Hs.
  - exact H5.
  - unfold save_disabled. rewrite H2. apply orb_true_r.
  - unfold save_label. now rewrite H2.
Qed.

(** X15: when [updateWorkflow] rejects, the original content and
    [hasChanges] stay as they are and the failure is logged; the
    [finally] block still ends the saving state and still sets
    [lastDeployedAt] to the time of the attempt. *)
Theorem save_rejected workflowId editor providers values now (st : St) :
  editorRef st = Some editor ->
  truthy_string workflowId = true ->
  let started := handleSaveWorkflow workflowId st in
  let content := getValue editor in
  let during := changes providers values (fst started) in
  let settled := handleSaveWorkflow_settled false content now during in
  originalContent settled = originalContent st
  /\ hasChanges settled = hasChanges during
  /\ console_errors settled
     = (console_errors during ++ ["Failed to save workflow:"])%list
  /\ isSaving settled = false
  /\ lastDeployedAt settled = Some now
  /\ save_disabled settled = negb (hasChanges during).
Proof.
  intros Hed Hid started content during settled.
  assert (Hs : started
               = (call_updateWorkflow workflowId content (setIsSaving true st),
                  Some content)).
  { unfold started, handleSaveWorkflow. now rewrite Hed, Hid. }
  destruct (changes_frame providers values (fst started))
    as (_ & _ & H3 & _).
  fold during in H3. rewrite Hs in H3. simpl in H3.
  clearbody during. repeat apply conj; try reflexivity.
  - exact H3.
  - unfold save_disabled. simpl. apply orb_false_r.
Qed.

(** X16: a save without a mounted editor does nothing at all, and a save
    with the empty string as workflow id only logs an error: in both
    cases [updateWorkflow] is not called and the saving state is not
    entered. Once [handleEditorDidMount] ran, a save with a non-empty id
    sends what [getValue()] of that editor returns. *)
Theorem save_guards workflowId providers editor (st : St) :
  (editorRef st = None -> handleSaveWorkflow workflowId st = (st, None))
  /\ (let r := handleSaveWorkflow EmptyString st in
      snd r = None
      /\ updateWorkflow_calls (fst r) = updateWorkflow_calls st
      /\ isSaving (fst r) = isSaving st
      /\ hasChanges (fst r) = hasChanges st
      /\ originalContent (fst r) = originalContent st)
  /\ (truthy_string workflowId = true ->
      let mounted :=
        handleEditorDidMount parseWorkflow wrapDefinitionV2 providers editor
          st in
      let r := handleSaveWorkflow workflowId mounted in
      isEditorMounted mounted = true
      /\ snd r = Some (getValue editor)
      /\ updateWorkflow_calls (fst r)
         = (updateWorkflow_calls st ++ [(workflowId, getValue editor)])%list).
Proof.
  split; [|split].
  - intros H. unfold handleSaveWorkflow. now rewrite H.
  - unfold handleSaveWorkflow. destruct (editorRef st); simpl; auto.
  - intros Hid mounted r.
    assert (Hm : editorRef mounted = Some editor
                 /\ updateWorkflow_calls mounted = updateWorkflow_calls st).
    { unfold mounted, handleEditorDidMount.
      destruct (getModel editor) as [text|]; simpl; [|auto].
      destruct (parse_frame providers text (set_editorRef editor st))
        as (H1 & _ & _ & _ & _ & H6 & _).
      cbv zeta in H1, H6. now rewrite H1, H6. }
    destruct Hm as [Hm1 Hm2]. split; [reflexivity|].
    clearbody mounted. unfold r, handleSaveWorkflow. rewrite Hm1, Hid. simpl.
    now rewrite Hm2.
Qed.

(** X17: the original content is the ordered form of the [yamlString]
    prop, not the prop itself: after the effect on [yamlString] ran, a
    change event that carries the very text of the prop leaves
    [hasChanges] false exactly when that text is its own ordered form. *)
Theorem original_content_is_ordered providers yamlString (st : St) :
  let st0 := yamlString_effect getOrderedWorkflowYamlString yamlString st in
  let st1 := change providers (Some yamlString) st0 in
  originalContent st0 = getOrderedWorkflowYamlString yamlString
  /\ (truthy_string yamlString = true ->
      (hasChanges st1 = false
       <-> getOrderedWorkflowYamlString yamlString = yamlString)).
Proof.
  intros st0 st1. split; [reflexivity|]. intros Hv.
  unfold st1, handleContentChange. rewrite Hv.
  destruct (parse_frame providers yamlString
              (setHasChanges
                 (negb (String.eqb yamlString (originalContent st0))) st0))
    as (_ & _ & H3 & _).
  cbv zeta in H3. rewrite H3. simpl.
  rewrite negb_false_iff, String.eqb_eq. split; congruence.
Qed.

End EditorFacts.

Lemma save_resolved_witness :
  let st :=
    handleEditorDidMount example_parseWorkflow example_wrapDefinitionV2 None
      example_editor (@init string unit) in
  let started := handleSaveWorkflow "wf-1" st in
  let during :=
    handleContentChanges example_parseWorkflow example_wrapDefinitionV2 None
      [Some "a: 3"] (fst started) in
  let settled := handleSaveWorkflow_settled true "a: 2" 1000%Z during in
  (editorRef st = Some example_editor /\ truthy_string "wf-1" = true)
  /\ hasChanges during = true
  /\ hasChanges settled = false
  /\ originalContent settled = "a: 2"
  /\ save_disabled settled = true.
Proof.
  intros st started during settled.
  split; [split; reflexivity|]. split; [reflexivity|].
  destruct (save_resolved example_parseWorkflow example_wrapDefinitionV2
              "wf-1" example_editor None [Some "a: 3"] 1000%Z st
              eq_refl eq_refl)
    as (_ & _ & _ & _ & Ho & Hc & _ & _ & Hd).
  split; [exact Hc|]. split; [exact Ho|exact Hd].
Defined.

Lemma save_rejected_witness :
  let st :=
    setHasChanges true
      (handleEditorDidMount example_parseWorkflow example_wrapDefinitionV2
         None example_editor (setOriginalContent "a: 1" (@init string unit)))
  in
  let started := handleSaveWorkflow "wf-1" st in
  let settled :=
    handleSaveWorkflow_settled false "a: 2" 1000%Z (fst started) in
  (editorRef st = Some example_editor /\ truthy_string "wf-1" = true)
  /\ originalContent settled = "a: 1"
  /\ lastDeployedAt settled = Some 1000%Z
  /\ save_disabled settled = false.
Proof.
  intros st started settled.
  split; [split; reflexivity|].
  destruct (save_rejected example_parseWorkflow example_wrapDefinitionV2
              "wf-1" example_editor None [] 1000%Z st eq_refl eq_refl)
    as (Ho & _ & _ & _ & Hl & Hd).
  split; [exact Ho|]. split; [exact Hl|exact Hd].
Defined.

End WorkflowYAMLEditorStandaloneFacts.
